(** * npm-registry-analytics: the request layer and the download-count client

    A shallow embedding of [src/RequestService.ts] (the retrying request
    executor and its query serializer) and of [NpmDownloadCountClient]
    (period resolution, request paths, fan-out and validation), followed by
    the properties of the specification that were checked against them.

    Conventions of the embedding:
    - a JavaScript [number] that holds an integer (status codes, retry
      counters, calendar fields, numeric query parameters) is a [Z];
    - a JavaScript string is a [string] of bytes (its UTF-8 encoding);
    - a rejected promise or a thrown exception is the left injection of a
      sum, the resolved value the right one;
    - the mutable private field [#requestRetry] is threaded explicitly:
      every call takes the instance and returns the instance it leaves. *)

From Stdlib Require Import ZArith String Ascii List Bool Lia.
From Stdlib Require Import DecimalString DecimalPos.
From Equations Require Import Equations.
Import ListNotations.

Set Warnings "-register-all".

Open Scope string_scope.
Open Scope Z_scope.

(** ** The host: strings, numbers, dates and errors of the JavaScript runtime *)

Module JS.

Definition is_lower (c : ascii) : bool :=
  (("a" <=? c) && (c <=? "z"))%char.

Definition is_upper (c : ascii) : bool :=
  (("A" <=? c) && (c <=? "Z"))%char.

Definition is_digit (c : ascii) : bool :=
  (("0" <=? c) && (c <=? "9"))%char.

Definition is_alphanumeric (c : ascii) : bool :=
  is_lower c || is_upper c || is_digit c.

(** [s.startsWith(p)] *)
Fixpoint startsWith (s p : string) {struct p} : bool :=
  match p, s with
  | EmptyString, _ => true
  | String _ _, EmptyString => false
  | String c p', String a s' => Ascii.eqb a c && startsWith s' p'
  end.

(** [s.toUpperCase().startsWith('W')]. [toUpperCase] follows the Unicode
    case mappings, character by character; the embedding keeps of it what
    this test observes. Three characters have an upper case that begins with
    [W]: [W] itself, [w], and U+1E98 (w with ring above), whose upper case
    is [W] followed by U+030A. In UTF-8, U+1E98 is the bytes 225 186 152. *)
Definition w_with_ring_above : string :=
  String "225" (String "186" (String "152" EmptyString)).

Definition toUpperCase_startsWith_W (s : string) : bool :=
  startsWith s "W" || startsWith s "w" || startsWith s w_with_ring_above.

Fixpoint endsWith_char (s : string) (c : ascii) : bool :=
  match s with
  | EmptyString => false
  | String a EmptyString => Ascii.eqb a c
  | String _ rest => endsWith_char rest c
  end.

Fixpoint repeat_char (c : ascii) (n : nat) : string :=
  match n with
  | O => EmptyString
  | S k => String c (repeat_char c k)
  end.

(** *** Numbers as strings *)

(** The decimal digits of an integer, after a [-] when it is negative. *)
Definition digits_of (n : Z) : string :=
  NilZero.string_of_int (Z.to_int n).

(** A number is a double, with 53 significant bits. The unit in the last
    place of a positive double [z]. *)
Definition ulp (z : Z) : Z := 2 ^ (Z.log2 z - 52).

(** Whether the integer [v] is rounded to the double [z], to the nearest
    with ties to the even significand; for [z] above [2^53]. In quarters of
    a unit: the double below a power of two is half a unit away. *)
Definition rounds_to (z v : Z) : bool :=
  let u := ulp z in
  let low := if z =? 2 ^ Z.log2 z then 4 * z - u else 4 * z - 2 * u in
  let high := 4 * z + 2 * u in
  if Z.even (z / u)
  then (low <=? 4 * v) && (4 * v <=? high)
  else (low <? 4 * v) && (4 * v <? high).

(** The multiple [s * 10^p] that stands for [z], when one is rounded to [z]:
    of the two next to [z] the closer one, the even [s] on a tie. *)
Definition nearest_multiple (z p : Z) : option Z :=
  let unit := 10 ^ p in
  let below := z / unit in
  let low := below * unit in
  let high := low + unit in
  match rounds_to z low, rounds_to z high with
  | true, true =>
      if z - low <? high - z then Some below
      else if high - z <? z - low then Some (below + 1)
      else if Z.even below then Some below else Some (below + 1)
  | true, false => Some below
  | false, true => Some (below + 1)
  | false, false => None
  end.

(** The fewest significant digits: the largest [p] below [fuel] with such a
    multiple, and its [s]. With [p = 0] the number stands for itself. *)
Fixpoint shortest (z : Z) (fuel : nat) : Z * Z :=
  match fuel with
  | O => (z, 0)
  | S k =>
      match nearest_multiple z (Z.of_nat k) with
      | Some s => (s, Z.of_nat k)
      | None => shortest z k
      end
  end.

Fixpoint strip_zeros (s : string) : string :=
  match s with
  | EmptyString => EmptyString
  | String c rest =>
      match strip_zeros rest with
      | EmptyString => if Ascii.eqb c "0" then EmptyString else String c EmptyString
      | kept => String c kept
      end
  end.

(** Number::toString for a double [z] above [2^53]: the digits of [s]
    followed by [p] zeros while that makes at most 21 digits, and from 1e21
    the exponent form, [d.ddde+x]. *)
Definition large_to_string (z : Z) : string :=
  let '(s, p) := shortest z (String.length (digits_of z)) in
  let digits := digits_of s in
  let n := Z.of_nat (String.length digits) + p in
  if n <=? 21 then digits ++ repeat_char "0" (Z.to_nat p)
  else
    match strip_zeros digits with
    | String c EmptyString => String c ("e+" ++ digits_of (n - 1))
    | String c rest => String c ("." ++ rest ++ "e+" ++ digits_of (n - 1))
    | EmptyString => EmptyString
    end.

(** [`${n}`] for a number [n] that holds an integer. Up to [2^53] in
    magnitude every integer is a double and is printed digit by digit;
    above, [n] is one of the doubles, and the digits are the fewest that
    still name it. *)
Definition number_to_string (n : Z) : string :=
  if Z.abs n <=? 2 ^ 53 then digits_of n
  else if n <? 0 then "-" ++ large_to_string (- n)
  else large_to_string n.

(** A getter of [Date] answers [NaN] on an invalid date; [None] is [NaN]. *)
Definition show_number (n : option Z) : string :=
  match n with
  | Some z => number_to_string z
  | None => "NaN"
  end.

(** [String(n).padStart(width, '0')] for a non-negative [n]. *)
Definition pad_start_0 (width : nat) (n : Z) : string :=
  let digits := number_to_string n in
  repeat_char "0" (width - String.length digits) ++ digits.

(** *** Percent-encoding *)

Definition hex_digit (n : nat) : ascii :=
  match n with
  | 0 => "0" | 1 => "1" | 2 => "2" | 3 => "3" | 4 => "4" | 5 => "5"
  | 6 => "6" | 7 => "7" | 8 => "8" | 9 => "9" | 10 => "A" | 11 => "B"
  | 12 => "C" | 13 => "D" | 14 => "E" | _ => "F"
  end%nat%char.

Definition percent_byte (c : ascii) : string :=
  let n := nat_of_ascii c in
  String "%" (String (hex_digit (n / 16)) (String (hex_digit (n mod 16)) EmptyString)).

Definition char_in (c : ascii) (set : string) : bool :=
  existsb (Ascii.eqb c) (list_ascii_of_string set).

(** The characters [encodeURI] leaves alone: the URI reserved characters,
    the unescaped marks, the letters and digits, and [#]. *)
Definition encodeURI_keeps (c : ascii) : bool :=
  is_alphanumeric c || char_in c ";/?:@&=+$,-_.!~*'()#".

Fixpoint encodeURI (s : string) : string :=
  match s with
  | EmptyString => EmptyString
  | String c rest =>
      (if encodeURI_keeps c then String c EmptyString else percent_byte c)
        ++ encodeURI rest
  end.

(** The [application/x-www-form-urlencoded] byte serializer that
    [URLSearchParams.prototype.toString] applies to names and values. *)
Definition urlencoded_keeps (c : ascii) : bool :=
  is_alphanumeric c || char_in c "*-._".

Fixpoint urlencoded (s : string) : string :=
  match s with
  | EmptyString => EmptyString
  | String c rest =>
      (if Ascii.eqb c " " then "+"
       else if urlencoded_keeps c then String c EmptyString
       else percent_byte c)
        ++ urlencoded rest
  end.

(** [URLSearchParams]: the list of name-value pairs, in insertion order. *)
Definition URLSearchParams := list (string * string).

Definition append (query : URLSearchParams) (name value : string) : URLSearchParams :=
  (query ++ [(name, value)])%list.

Definition pair_toString (p : string * string) : string :=
  urlencoded (fst p) ++ "=" ++ urlencoded (snd p).

(** [query.toString()], which is what [`?${query}`] calls. *)
Definition toString (query : URLSearchParams) : string :=
  String.concat "&" (map pair_toString query).

(** *** Calendar arithmetic of [Date] *)

Definition msPerDay : Z := 86400000.

(** The calendar repeats every 400 years, an era of 146097 days that is
    taken to begin on a 1st of March. [day_of_era] numbers the days of an
    era from the year of the era, the month (1 to 12) and the day. *)
Definition day_of_era (yoe m d : Z) : Z :=
  let mp := (m + 9) mod 12 in
  let doy := (153 * mp + 2) / 5 + d - 1 in
  yoe * 365 + yoe / 4 - yoe / 100 + doy.

(** The year of the era (counted from March), the month and the day of a
    day of the era. *)
Definition civil_of_era (doe : Z) : Z * Z * Z :=
  let yoe := (doe - doe / 1460 + doe / 36524 - doe / 146096) / 365 in
  let doy := doe - (365 * yoe + yoe / 4 - yoe / 100) in
  let mp := (5 * doy + 2) / 153 in
  let d := doy - (153 * mp + 2) / 5 + 1 in
  let m := if mp <? 10 then mp + 3 else mp - 9 in
  (yoe, m, d).

(** Days since 1970-01-01 of the proleptic Gregorian date [y]-[m]-[d]. *)
Definition days_from_civil (y m d : Z) : Z :=
  let y' := if m <=? 2 then y - 1 else y in
  let era := y' / 400 in
  era * 146097 + day_of_era (y' - era * 400) m d - 719468.

(** Year, month (1 to 12) and day of month of a day number. *)
Definition civil_from_days (z : Z) : Z * Z * Z :=
  let z' := z + 719468 in
  let era := z' / 146097 in
  let '(yoe, m, d) := civil_of_era (z' - era * 146097) in
  let y := yoe + era * 400 in
  (if m <=? 2 then y + 1 else y, m, d).

Definition is_leap (y : Z) : bool :=
  ((y mod 4 =? 0) && negb (y mod 100 =? 0)) || (y mod 400 =? 0).

Definition days_in_month (y m : Z) : Z :=
  if m =? 2 then (if is_leap y then 29 else 28)
  else if (m =? 4) || (m =? 6) || (m =? 9) || (m =? 11) then 30
  else 31.

(** A [Date] object: its time value in milliseconds since the epoch (UTC),
    or the invalid date, whose time value is [NaN]. *)
Inductive Date : Type :=
| InvalidDate
| DateAt (time : Z).

Section LocalTime.

(** Offset of local time from UTC, in milliseconds, taken to be the same
    at every instant (a zone without daylight-saving transitions). *)
Variable tz : Z.

Definition local_day (t : Z) : Z := (t + tz) / msPerDay.

Definition getFullYear (d : Date) : option Z :=
  match d with
  | InvalidDate => None
  | DateAt t => Some (fst (fst (civil_from_days (local_day t))))
  end.

(** Zero-based, as in JavaScript. *)
Definition getMonth (d : Date) : option Z :=
  match d with
  | InvalidDate => None
  | DateAt t => Some (snd (fst (civil_from_days (local_day t))) - 1)
  end.

Definition getDate (d : Date) : option Z :=
  match d with
  | InvalidDate => None
  | DateAt t => Some (snd (civil_from_days (local_day t)))
  end.

(** Day of the week, 0 for Sunday; 1970-01-01 was a Thursday. *)
Definition getDay (d : Date) : option Z :=
  match d with
  | InvalidDate => None
  | DateAt t => Some ((local_day t + 4) mod 7)
  end.

(** [new Date(y, m - 1, d, 0, 0, 0, ms)]: local wall-clock time. *)
Definition local_date (y m d ms : Z) : Date :=
  DateAt (days_from_civil y m d * msPerDay + ms - tz).

End LocalTime.

(** [n + 1] on a getter's answer ([NaN + 1] is [NaN]). *)
Definition plus_one (n : option Z) : option Z := option_map (fun z => z + 1) n.

(** The year of [toISOString]: four digits, or a sign and six digits
    outside 0..9999. *)
Definition iso_year (y : Z) : string :=
  if (0 <=? y) && (y <=? 9999) then pad_start_0 4 y
  else if y <? 0 then "-" ++ pad_start_0 6 (- y)
  else "+" ++ pad_start_0 6 y.

(** The calendar form [YYYY-MM-DD], zero-padded. *)
Definition iso_date_string (y m d : Z) : string :=
  iso_year y ++ "-" ++ pad_start_0 2 m ++ "-" ++ pad_start_0 2 d.

(** [date.toISOString().split('T')[0]]: the UTC calendar date.
    [toISOString] throws a [RangeError] on an invalid date ([None]). *)
Definition toISOString_date (d : Date) : option string :=
  match d with
  | InvalidDate => None
  | DateAt t =>
      let '(y, m, dd) := civil_from_days (t / msPerDay) in
      Some (iso_date_string y m dd)
  end.

(** *** Values, JSON documents and thrown errors *)

(** A parsed JSON document, which is also what a custom request service may
    resolve to. Numbers are the integral ones. *)
Inductive Json : Type :=
| JNull
| JBool (b : bool)
| JNumber (n : Z)
| JString (s : string)
| JArray (items : list Json)
| JObject (fields : list (string * Json)).

(** [object[key]]; [None] is [undefined]. *)
Fixpoint get_field (key : string) (fields : list (string * Json)) : option Json :=
  match fields with
  | [] => None
  | (k, v) :: rest => if String.eqb k key then Some v else get_field key rest
  end.

(** The values a [Record<string, unknown>] of query parameters may hold.
    [VNumber] is a number with an integral value. [VBigInt] is the primitive ([42n], [BigInt(42)]); [VBigIntObject] is the
    wrapper object ([Object(42n)]), the only value for which
    [value instanceof BigInt] holds. *)
Inductive Value : Type :=
| VUndefined
| VNull
| VBoolean (b : bool)
| VNumber (n : Z)
| VBigInt (n : Z)
| VString (s : string)
| VDate (d : Date)
| VBigIntObject (n : Z)
| VObject (o : Json).

Inductive PathSegment : Type :=
| Key (name : string)
| Index (i : nat).

(** One [ZodIssue]: where the input departs from the schema. *)
Record ZodIssue : Type := {
  code : string;
  expected : string;
  received : string;
  path : list PathSegment;
  issue_message : string
}.

(** What a [throw] carries or a promise rejects with. [JsError] is
    [new Error(message, { cause })]; [ValidationError] is the class of
    [src/errors.ts]; [ZodError] is the validation library's error with its
    [errors] list; [HostError] is an error of the runtime itself
    ([TypeError: fetch failed], [SyntaxError], [RangeError]). *)
Inductive Thrown : Type :=
| JsError (message : string) (cause : option Thrown)
| ValidationError (message : string) (validationErrors : list ZodIssue)
    (cause : option Thrown)
| ZodError (errors : list ZodIssue)
| HostError (name : string) (message : string).

Definition message_of (e : Thrown) : option string :=
  match e with
  | JsError m _ => Some m
  | ValidationError m _ _ => Some m
  | ZodError _ => None
  | HostError _ m => Some m
  end.

Definition cause_of (e : Thrown) : option Thrown :=
  match e with
  | JsError _ c => c
  | ValidationError _ _ c => c
  | ZodError _ => None
  | HostError _ _ => None
  end.

(** A computation that returns an [A] or throws. *)
Definition Result (A : Type) : Type := (Thrown + A)%type.

Definition ret {A : Type} (a : A) : Result A := inr a.

Definition throw {A : Type} (e : Thrown) : Result A := inl e.

Definition bind {A B : Type} (m : Result A) (k : A -> Result B) : Result B :=
  match m with
  | inl e => inl e
  | inr a => k a
  end.

(** [try { body } catch (err) { handler(err) }] *)
Definition try_catch {A : Type} (body : Result A) (handler : Thrown -> Result A)
  : Result A :=
  match body with
  | inl e => handler e
  | inr a => inr a
  end.

(** [items.map(f)] where [f] may throw: the first throw ends the loop. *)
Fixpoint map_throwing {A B : Type} (f : A -> Result B) (items : list A)
  : Result (list B) :=
  match items with
  | [] => ret []
  | x :: rest =>
      bind (f x) (fun y => bind (map_throwing f rest) (fun ys => ret (y :: ys)))
  end.

End JS.

(** ** The validation library, as far as the two response schemas use it *)

Module Zod.
Import JS.

(** The schema combinators of [src/schemas]: [z.string()], [z.number()],
    [z.array(element)] and [z.object(shape)]. *)
Inductive ZodType : Type :=
| ZString
| ZNumber
| ZArray (element : ZodType)
| ZObject (shape : list (string * ZodType)).

(** The library's name for the type of an input; [None] is [undefined]. *)
Definition parsedType (input : option Json) : string :=
  match input with
  | None => "undefined"
  | Some JNull => "null"
  | Some (JBool _) => "boolean"
  | Some (JNumber _) => "number"
  | Some (JString _) => "string"
  | Some (JArray _) => "array"
  | Some (JObject _) => "object"
  end.

Definition invalid_type (at_path : list PathSegment) (want : string)
  (input : option Json) : ZodIssue :=
  {| code := "invalid_type";
     expected := want;
     received := parsedType input;
     path := at_path;
     issue_message :=
       match input with
       | None => "Required"
       | Some _ => "Expected " ++ want ++ ", received " ++ parsedType input
       end |}.

(** Checks [input] against [schema]: the issues found, all of them, and the
    output value, which is meaningful when there is no issue. An object
    schema keeps the keys of its shape and strips the others. *)
Fixpoint check (schema : ZodType) (at_path : list PathSegment)
  (input : option Json) {struct schema} : list ZodIssue * Json :=
  match schema with
  | ZString =>
      match input with
      | Some (JString s) => ([], JString s)
      | _ => ([invalid_type at_path "string" input], JNull)
      end
  | ZNumber =>
      match input with
      | Some (JNumber n) => ([], JNumber n)
      | _ => ([invalid_type at_path "number" input], JNull)
      end
  | ZArray element =>
      match input with
      | Some (JArray items) =>
          let fix each (items : list Json) (i : nat) : list ZodIssue * list Json :=
            match items with
            | [] => ([], [])
            | item :: rest =>
                let '(issues, value) :=
                  check element (at_path ++ [Index i]) (Some item) in
                let '(more, values) := each rest (S i) in
                (issues ++ more, value :: values)
            end in
          let '(issues, values) := each items O in
          (issues, JArray values)
      | _ => ([invalid_type at_path "array" input], JNull)
      end
  | ZObject shape =>
      match input with
      | Some (JObject fields) =>
          let fix each (shape : list (string * ZodType))
            : list ZodIssue * list (string * Json) :=
            match shape with
            | [] => ([], [])
            | (key, field_schema) :: rest =>
                let '(issues, value) :=
                  check field_schema (at_path ++ [Key key]) (get_field key fields) in
                let '(more, values) := each rest in
                (issues ++ more, (key, value) :: values)
            end in
          let '(issues, values) := each shape in
          (issues, JObject values)
      | _ => ([invalid_type at_path "object" input], JNull)
      end
  end%list.

(** [schema.parse(object)]: the output, or a thrown [ZodError]. *)
Definition parse (schema : ZodType) (object : Json) : Result Json :=
  match check schema [] (Some object) with
  | ([], value) => ret value
  | (issues, _) => throw (ZodError issues)
  end.

End Zod.

(** [src/schemas/NpmAPIPointResponse.ts] *)
Definition NpmAPIPointResponseSchema : Zod.ZodType :=
  Zod.ZObject
    [ ("package", Zod.ZString);
      ("downloads", Zod.ZNumber);
      ("start", Zod.ZString);
      ("end", Zod.ZString) ].

(** [src/schemas/NpmAPIRangeResponse.ts] *)
Definition NpmAPIRangeResponseSchema : Zod.ZodType :=
  Zod.ZObject
    [ ("package", Zod.ZString);
      ("start", Zod.ZString);
      ("end", Zod.ZString);
      ("downloads",
        Zod.ZArray
          (Zod.ZObject [ ("downloads", Zod.ZNumber); ("day", Zod.ZString) ])) ].

(** ** [src/RequestService.ts] *)

Module RequestService.
Import JS.

Inductive HttpMethod : Type :=
| GET | HEAD | POST | PUT | DELETE | CONNECT | OPTIONS | TRACE | PATCH.

(** [RequestOptions]; an absent field is [None]. *)
Record RequestOptions : Type := {
  path : option string;
  method : option HttpMethod;
  body : option string;
  queryParams : option (list (string * Value))
}.

(** [RequestRetry]: the retry counter and its two settings. *)
Record RequestRetry : Type := {
  count : Z;
  maxRetries : Z;
  delay : Z
}.

Record RetryConfig : Type := {
  config_maxRetries : option Z;
  config_delay : option Z
}.

Record RequestServiceConfig : Type := {
  hostname : option string;
  config_basePath : option string;
  protocol : option string;
  requestRetryConfig : option RetryConfig
}.

(** The private fields of an instance. *)
Record RequestService : Type := {
  requestRetry : RequestRetry;
  basePath : string
}.

(** [a || fallback] on an optional string: the empty string is falsy too. *)
Definition or_default (a : option string) (fallback : string) : string :=
  match a with
  | Some EmptyString => fallback
  | Some s => s
  | None => fallback
  end.

(** The origin the constructor hands to [setGlobalOrigin]. *)
Definition global_origin (config : option RequestServiceConfig) : string :=
  or_default (match config with Some c => protocol c | None => None end) "https"
    ++ "://"
    ++ or_default (match config with Some c => hostname c | None => None end)
         "api.npmjs.org".

(** [config?.requestRetryConfig?.field !== undefined ? ... : fallback] *)
Definition retry_setting (config : option RequestServiceConfig)
  (field : RetryConfig -> option Z) (fallback : Z) : Z :=
  match config with
  | Some c =>
      match requestRetryConfig c with
      | Some r => match field r with Some v => v | None => fallback end
      | None => fallback
      end
  | None => fallback
  end.

(** [new RequestService(config)] *)
Definition constructor (config : option RequestServiceConfig) : RequestService :=
  {| basePath :=
       or_default (match config with Some c => config_basePath c | None => None end)
         "/downloads";
     requestRetry :=
       {| count := 0;
          maxRetries := retry_setting config config_maxRetries 3;
          delay := retry_setting config config_delay 1000 |} |}.

(** [#serializeQueryParams]: walks [Object.entries(params)] in order. The
    three tests on a value are separate [if]s, as in the source; at most one
    of them holds. A [Date] that is invalid makes [toISOString] throw. *)
Definition serialize_entry (query : URLSearchParams) (entry : string * Value)
  : Result URLSearchParams :=
  let '(key, value) := entry in
  match value with
  | VUndefined | VNull => ret query
  | _ =>
      let query :=
        match value with
        | VNumber n => append query key (number_to_string n)
        | VBigIntObject n => append query key (number_to_string n)
        | _ => query
        end in
      let query :=
        match value with
        | VString s => append query key (encodeURI s)
        | _ => query
        end in
      match value with
      | VDate d =>
          match toISOString_date d with
          | Some day => ret (append query key day)
          | None => throw (HostError "RangeError" "Invalid time value")
          end
      | _ => ret query
      end
  end.

Fixpoint serialize_entries (query : URLSearchParams)
  (entries : list (string * Value)) : Result URLSearchParams :=
  match entries with
  | [] => ret query
  | entry :: rest =>
      bind (serialize_entry query entry) (fun query => serialize_entries query rest)
  end.

Definition serializeQueryParams (params : list (string * Value))
  : Result URLSearchParams :=
  serialize_entries [] params.

(** What [fetch] settles to: a rejection (the remote cannot be reached) or
    a response with its status and what [response.json()] will give. *)
Record Response : Type := {
  status : Z;
  json : Result Json
}.

Inductive FetchResult : Type :=
| FetchRejected (reason : Thrown)
| Responded (response : Response).

(** [response.ok] *)
Definition ok (response : Response) : bool :=
  (200 <=? status response) && (status response <=? 299).

(** What a call does to the outside, in order. *)
Inductive Event : Type :=
| Fetched (url : string) (how : HttpMethod) (payload : option string)
| Slept (ms : Z).

Definition World : Type := list Event.

Definition is_fetch (e : Event) : bool :=
  match e with
  | Fetched _ _ _ => true
  | Slept _ => false
  end.

(** The number of fetch attempts recorded so far. *)
Definition attempts (world : World) : nat := List.length (filter is_fetch world).

(** [[500, 502, 503, 504].includes(code)] *)
Definition isRetriableCode (code : Z) : bool :=
  existsb (Z.eqb code) [500; 502; 503; 504].

(** The query part of the URL: [?] and the serialized parameters when a
    mapping is given, nothing otherwise. *)
Definition query_of (options : option RequestOptions) : Result string :=
  match options with
  | Some o =>
      match queryParams o with
      | Some params =>
          bind (serializeQueryParams params) (fun query => ret ("?" ++ toString query))
      | None => ret ""
      end
  | None => ret ""
  end.

Definition path_of (options : option RequestOptions) : string :=
  or_default (match options with Some o => path o | None => None end) "".

Definition method_of (options : option RequestOptions) : HttpMethod :=
  match options with
  | Some o => match method o with Some m => m | None => GET end
  | None => GET
  end.

Definition body_of (options : option RequestOptions) : option string :=
  match options with
  | Some o => body o
  | None => None
  end.

Definition with_count (self : RequestService) (n : Z) : RequestService :=
  {| basePath := basePath self;
     requestRetry :=
       {| count := n;
          maxRetries := maxRetries (requestRetry self);
          delay := delay (requestRetry self) |} |}.

(** Retries still allowed: the measure that makes [request] terminate. *)
Definition budget (self : RequestService) : nat :=
  Z.to_nat (maxRetries (requestRetry self) - count (requestRetry self)).

Section Request.

(** The remote: what the [n]-th fetch of the run (counted from 0) settles
    to, given the URL it asked for. *)
Variable server : nat -> string -> FetchResult.

(** [fetch(url, { method, body })] *)
Definition fetch (url : string) (how : HttpMethod) (payload : option string)
  (world : World) : FetchResult * World :=
  (server (attempts world) url, (world ++ [Fetched url how payload])%list).

(** [request(options)]: the outcome, the instance and the world it leaves. *)
Equations? request (self : RequestService) (options : option RequestOptions)
  (world : World) : Result Json * RequestService * World
  by wf (budget self) lt :=
request self options world with query_of options => {
  | inl err => (throw err, self, world);
  | inr query
    with fetch (basePath self ++ path_of options ++ query)
           (method_of options) (body_of options) world => {
    | (FetchRejected err, after) => (throw err, self, after);
    | (Responded response, after) with ok response => {
      | false
        with isRetriableCode (status response),
             Z_lt_dec (count (requestRetry self)) (maxRetries (requestRetry self)) => {
        | true, left _ =>
            request (with_count self (count (requestRetry self) + 1)) options
              (after ++ [Slept (delay (requestRetry self))])%list;
        | true, right _
          with Z_ge_dec (count (requestRetry self)) (maxRetries (requestRetry self)) => {
          | left _ =>
              (throw (JsError
                        "API endpoint failed to provide a valid response, max retries exceeded"
                        None),
               self, after);
          | right _ =>
              (throw (JsError
                        ("API endpoint returned status code "
                           ++ number_to_string (status response)) None),
               with_count self 0, after) };
        | false, _ =>
            (throw (JsError
                      ("API endpoint returned status code "
                         ++ number_to_string (status response)) None),
             with_count self 0, after) };
      | true with json response => {
        | inr document => (ret document, with_count self 0, after);
        | inl err =>
            (throw (JsError "API endpoint returned a non JSON response" (Some err)),
             with_count self 0, after) } } } }.
Proof.
  unfold budget; simpl. lia.
Qed.

End Request.

End RequestService.

(** ** The date library *)

Module DateFns.
Import JS.

Section LocalTime.

Variable tz : Z.

(** Modelled from the spec: [startOfWeek(date, { weekStartsOn })] of the date
    library, which is imported by the client and is not part of the sources.
    The spec has the week start "relative to the startOfWeek option
    (Monday = boundary 1, Sunday = boundary 0)": the local midnight that
    opens the last day, on or before [date], whose day of the week is
    [weekStartsOn]. An invalid date stays invalid. *)
Definition startOfWeek (date : Date) (weekStartsOn : Z) : Date :=
  match date with
  | InvalidDate => InvalidDate
  | DateAt t =>
      let day := (local_day tz t + 4) mod 7 in
      let diff := (if day <? weekStartsOn then 7 else 0) + day - weekStartsOn in
      DateAt ((local_day tz t - diff) * msPerDay - tz)
  end.

(** Modelled from the spec: [endOfWeek(date, { weekStartsOn })] of the same
    library. The spec has an "inclusive 7-day span": the last millisecond of
    the sixth day after the week start. *)
Definition endOfWeek (date : Date) (weekStartsOn : Z) : Date :=
  match date with
  | InvalidDate => InvalidDate
  | DateAt t =>
      let day := (local_day tz t + 4) mod 7 in
      let diff := (if day <? weekStartsOn then -7 else 0) + 6 - (day - weekStartsOn) in
      DateAt ((local_day tz t + diff) * msPerDay + (msPerDay - 1) - tz)
  end.

End LocalTime.

End DateFns.

(** ** [NpmDownloadCountClient] *)

Module NpmDownloadCountClient.
Import JS.

Inductive RequestType : Type := point | range.

Inductive RequestKeyword : Type := last_day | last_week | last_month.

Definition RequestType_string (t : RequestType) : string :=
  match t with
  | point => "point"
  | range => "range"
  end.

Definition RequestKeyword_string (k : RequestKeyword) : string :=
  match k with
  | last_day => "last-day"
  | last_week => "last-week"
  | last_month => "last-month"
  end.

(** The three shapes of [MakeRequestPathOptions]: the union type lets
    exactly one of [keyword], [date] and [startDate]/[endDate] be set. *)
Inductive Period : Type :=
| WithKeyword (keyword : RequestKeyword)
| WithSingleDate (date : Date)
| WithDateRange (startDate endDate : Date).

Record MakeRequestPathOptions : Type := {
  packages : list string;
  requestType : RequestType;
  period : Period
}.

Inductive StartOfWeek : Type := monday | sunday.

(** [string | Date] *)
Inductive StringOrDate : Type :=
| Str (s : string)
| Obj (d : Date).

(** The promise a request returns, flattened: when it settles and how. *)
Record Settled : Type := {
  settledAt : nat;
  outcome : Result Json
}.

(** The [RequestService] interface as the client sees it: the promise
    returned by the [i]-th call of [request] made during one operation. *)
Definition IRequestService : Type := nat -> RequestService.RequestOptions -> Settled.

(** The rejection that [Promise.all] reports: the one that settles first,
    the earlier promise winning a tie. *)
Fixpoint first_rejection (promises : list Settled) : option (nat * Thrown) :=
  match promises with
  | [] => None
  | p :: rest =>
      match outcome p, first_rejection rest with
      | inl e, Some (t, e') =>
          if (t <? settledAt p)%nat then Some (t, e') else Some (settledAt p, e)
      | inl e, None => Some (settledAt p, e)
      | inr _, later => later
      end
  end.

(** [await Promise.all(promises)]: every value, in the order of the
    promises, or the first rejection. *)
Definition Promise_all (promises : list Settled) : Result (list Json) :=
  match first_rejection promises with
  | Some (_, e) => throw e
  | None => map_throwing outcome promises
  end.

(** [items.map((item, i) => f(i, item))] *)
Fixpoint map_indexed {A B : Type} (f : nat -> A -> B) (i : nat) (items : list A)
  : list B :=
  match items with
  | [] => []
  | x :: rest => f i x :: map_indexed f (S i) rest
  end.

(** [{ path }] *)
Definition path_only (p : string) : RequestService.RequestOptions :=
  {| RequestService.path := Some p;
     RequestService.method := None;
     RequestService.body := None;
     RequestService.queryParams := None |}.

(** [#parseObjectWithSchema] *)
Definition parseObjectWithSchema (schema : Zod.ZodType) (object : Json)
  : Result Json :=
  try_catch (Zod.parse schema object)
    (fun err =>
       throw (ValidationError "Object shape is not valid."
                (match err with ZodError errors => errors | _ => [] end)
                (Some err))).

Definition schema_of (type : RequestType) : Zod.ZodType :=
  match type with
  | point => NpmAPIPointResponseSchema
  | range => NpmAPIRangeResponseSchema
  end.

Section Client.

(** The host's time zone offset and clock, and [parseISO] of the date
    library, which the sources import and do not contain. *)
Variable tz : Z.
Variable now : Z.
Variable parseISO : string -> Date.

(** The [#requestService] field. *)
Variable requestService : IRequestService.

(** [`${date.getFullYear()}-${date.getMonth() + 1}-${date.getDate()}`] *)
Definition date_fragment (date : Date) : string :=
  show_number (getFullYear tz date) ++ "-"
    ++ show_number (plus_one (getMonth tz date)) ++ "-"
    ++ show_number (getDate tz date).

(** [#makeRequestPaths] *)
Definition makeRequestPaths (options : MakeRequestPathOptions) : list string :=
  let when :=
    match period options with
    | WithKeyword keyword => RequestKeyword_string keyword
    | WithSingleDate date => date_fragment date
    | WithDateRange startDate endDate =>
        date_fragment startDate ++ ":" ++ date_fragment endDate
    end in
  map (fun packageName =>
         "/" ++ RequestType_string (requestType options) ++ "/" ++ when ++ "/"
           ++ packageName)
    (packages options).

(** [startOfWeek === 'sunday' ? 0 : 1]; the option may be left out. *)
Definition weekStartsOn (startOfWeek : option StartOfWeek) : Z :=
  match startOfWeek with
  | Some sunday => 0
  | _ => 1
  end.

(** [#getStartAndEndDatesForWeek] *)
Definition getStartAndEndDatesForWeek (week : StringOrDate)
  (startOfWeek : option StartOfWeek) : Date * Date :=
  let weekDate :=
    match week with
    | Obj d => d
    | Str s =>
        if toUpperCase_startsWith_W s then
          let currentYear := getFullYear tz (DateAt now) in
          parseISO (show_number currentYear ++ s)
        else parseISO s
    end in
  (DateFns.startOfWeek tz weekDate (weekStartsOn startOfWeek),
   DateFns.endOfWeek tz weekDate (weekStartsOn startOfWeek)).

(** [#request]: one request per path, all dispatched before any is awaited,
    then every response validated in order; any failure is wrapped. *)
Definition request (paths : list string) (type : RequestType) : Result (list Json) :=
  try_catch
    (bind
       (Promise_all (map_indexed (fun i p => requestService i (path_only p)) O paths))
       (fun responses =>
          map_throwing (parseObjectWithSchema (schema_of type)) responses))
    (fun err =>
       throw (JsError "Unable to get downloads stats from the npm API" (Some err))).

Definition date_of (value : StringOrDate) : Date :=
  match value with
  | Obj d => d
  | Str s => parseISO s
  end.

Definition getBetweenDates (pkgs : list string) (start finish : StringOrDate)
  : Result (list Json) :=
  request
    (makeRequestPaths
       {| packages := pkgs;
          period := WithDateRange (date_of start) (date_of finish);
          requestType := point |})
    point.

Definition getDailyDownloadsForLastMonth (pkgs : list string) : Result (list Json) :=
  request
    (makeRequestPaths
       {| packages := pkgs; period := WithKeyword last_month; requestType := range |})
    range.

Definition getDailyDownloadsForLastWeek (pkgs : list string) : Result (list Json) :=
  request
    (makeRequestPaths
       {| packages := pkgs; period := WithKeyword last_week; requestType := range |})
    range.

Definition getDailyDownloadsForMonth : Result (list Json) :=
  throw (JsError "Method not implemented." None).

Definition getDailyDownloadsForWeek (pkgs : list string) (week : StringOrDate)
  (startOfWeek : option StartOfWeek) : Result (list Json) :=
  let '(startDate, endDate) := getStartAndEndDatesForWeek week startOfWeek in
  request
    (makeRequestPaths
       {| packages := pkgs;
          period := WithDateRange startDate endDate;
          requestType := range |})
    range.

(** [getDay]: [new Date(date)] copies the [Date] it is given. *)
Definition getDay (pkgs : list string) (date : Date) : Result (list Json) :=
  request
    (makeRequestPaths
       {| packages := pkgs; period := WithSingleDate date; requestType := point |})
    point.

Definition getLastDay (pkgs : list string) : Result (list Json) :=
  request
    (makeRequestPaths
       {| packages := pkgs; period := WithKeyword last_day; requestType := point |})
    point.

Definition getLastMonth (pkgs : list string) : Result (list Json) :=
  request
    (makeRequestPaths
       {| packages := pkgs; period := WithKeyword last_month; requestType := point |})
    point.

Definition getLastWeek (pkgs : list string) : Result (list Json) :=
  request
    (makeRequestPaths
       {| packages := pkgs; period := WithKeyword last_week; requestType := point |})
    point.

Definition getMonth : Result (list Json) :=
  throw (JsError "Method not implemented." None).

Definition getWeek (pkgs : list string) (week : StringOrDate)
  (startOfWeek : option StartOfWeek) : Result (list Json) :=
  let '(startDate, endDate) := getStartAndEndDatesForWeek week startOfWeek in
  request
    (makeRequestPaths
       {| packages := pkgs;
          period := WithDateRange startDate endDate;
          requestType := point |})
    point.

(** *** The operations as data, to speak of all of them at once *)

Inductive Call : Type :=
| CallGetBetweenDates (pkgs : list string) (start finish : StringOrDate)
| CallGetDailyDownloadsForLastMonth (pkgs : list string)
| CallGetDailyDownloadsForLastWeek (pkgs : list string)
| CallGetDailyDownloadsForMonth
| CallGetDailyDownloadsForWeek (pkgs : list string) (week : StringOrDate)
    (startOfWeek : option StartOfWeek)
| CallGetDay (pkgs : list string) (date : Date)
| CallGetLastDay (pkgs : list string)
| CallGetLastMonth (pkgs : list string)
| CallGetLastWeek (pkgs : list string)
| CallGetMonth
| CallGetWeek (pkgs : list string) (week : StringOrDate)
    (startOfWeek : option StartOfWeek).

Definition invoke (c : Call) : Result (list Json) :=
  match c with
  | CallGetBetweenDates pkgs start finish => getBetweenDates pkgs start finish
  | CallGetDailyDownloadsForLastMonth pkgs => getDailyDownloadsForLastMonth pkgs
  | CallGetDailyDownloadsForLastWeek pkgs => getDailyDownloadsForLastWeek pkgs
  | CallGetDailyDownloadsForMonth => getDailyDownloadsForMonth
  | CallGetDailyDownloadsForWeek pkgs week startOfWeek =>
      getDailyDownloadsForWeek pkgs week startOfWeek
  | CallGetDay pkgs date => getDay pkgs date
  | CallGetLastDay pkgs => getLastDay pkgs
  | CallGetLastMonth pkgs => getLastMonth pkgs
  | CallGetLastWeek pkgs => getLastWeek pkgs
  | CallGetMonth => getMonth
  | CallGetWeek pkgs week startOfWeek => getWeek pkgs week startOfWeek
  end.

End Client.

End NpmDownloadCountClient.

(** ** Vocabulary of the statements *)

Module Terms.
Import JS RequestService NpmDownloadCountClient.

(** The error of an exhausted retry budget. *)
Definition max_retries_exceeded : Thrown :=
  JsError "API endpoint failed to provide a valid response, max retries exceeded" None.

(** The error of a status that is neither a success nor retriable. *)
Definition bad_status (code : Z) : Thrown :=
  JsError ("API endpoint returned status code " ++ number_to_string code) None.

(** The outward error of the client and the validation error it may wrap. *)
Definition unable_to_get_stats (cause : Thrown) : Thrown :=
  JsError "Unable to get downloads stats from the npm API" (Some cause).

Definition shape_not_valid (cause : Thrown) : Thrown :=
  ValidationError "Object shape is not valid."
    (match cause with ZodError errors => errors | _ => [] end) (Some cause).

(** [n] retries of [attempt], each after a wait. *)
Fixpoint retries (attempt : Event) (wait : Z) (n : nat) : World :=
  match n with
  | O => []
  | S k => Slept wait :: attempt :: retries attempt wait k
  end.

(** The reply is a response with one of the four retriable statuses. *)
Definition retriable_reply (reply : FetchResult) : Prop :=
  exists response,
    reply = Responded response /\ In (status response) [500; 502; 503; 504].

Fixpoint string_forall (p : ascii -> bool) (s : string) : bool :=
  match s with
  | EmptyString => true
  | String c rest => p c && string_forall p rest
  end.

Definition digit_or_minus (c : ascii) : bool := is_digit c || Ascii.eqb c "-".

(** A configuration that sets the two retry options and nothing else. *)
Definition retry_config (retry_limit wait : Z) : option RequestServiceConfig :=
  Some {| hostname := None;
          config_basePath := None;
          protocol := None;
          requestRetryConfig :=
            Some {| config_maxRetries := Some retry_limit;
                    config_delay := Some wait |} |}.

(** A remote that answers every fetch with the same status and body. *)
Definition replying (code : Z) (document : Result Json)
  : nat -> string -> FetchResult :=
  fun _ _ => Responded {| status := code; json := document |}.

(** A remote that answers every fetch with the same status and no body. *)
Definition always (code : Z) : nat -> string -> FetchResult :=
  replying code (throw (HostError "SyntaxError" "Unexpected end of JSON input")).

(** Options that carry a mapping of query parameters and nothing else. *)
Definition with_params (params : list (string * Value)) : option RequestOptions :=
  Some {| path := None; method := None; body := None; queryParams := Some params |}.

(** The calendar year of a month of a year that is counted from March. *)
Definition calendar_year (yoe m : Z) : Z := if m <=? 2 then yoe + 1 else yoe.

(** [y]-[m]-[d] is a date of the calendar. *)
Definition valid_date (y m d : Z) : Prop :=
  1 <= m <= 12 /\ 1 <= d <= days_in_month y m.



(** The string handed to the date library for a week given as a string:
    the current year is put before it when it begins with [W], with [w], or
    with U+1E98 (the character whose upper case begins with [W]). *)
Definition handed_to_library (tz now : Z) (week : string) : string :=
  match week with
  | String c rest =>
      if Ascii.eqb c "W" || Ascii.eqb c "w"
         || (Ascii.eqb c "225" && startsWith rest (String "186" (String "152" "")))
      then show_number (getFullYear tz (DateAt now)) ++ week
      else week
  | EmptyString => week
  end.

(** The date a week is resolved from: a [Date] object is that date; a
    string is read by the date library, in the form it is handed over. *)
Definition week_date (tz now : Z) (parseISO : string -> Date) (week : StringOrDate)
  : Date :=
  match week with
  | Obj d => d
  | Str s => parseISO (handed_to_library tz now s)
  end.


(** What the date library reads in the strings of the unit tests, at UTC:
    both [2023-05-15] and [2023W20] are Monday 15 May 2023. *)
Definition parseISO_of_the_tests (s : string) : Date :=
  if String.eqb s "2023-05-15" || String.eqb s "2023W20"
  then local_date 0 2023 5 15 0
  else InvalidDate.

(** Noon of 1 November 2023, UTC. *)
Definition a_day_of_2023 : Z := days_from_civil 2023 11 1 * msPerDay + 43200000.

(** What an operation asks [#makeRequestPaths] for; [None] for the two
    operations that are not implemented and dispatch nothing. *)
Definition plan (tz now : Z) (parseISO : string -> Date) (c : Call)
  : option MakeRequestPathOptions :=
  let week_range week startOfWeek :=
    let '(startDate, endDate) :=
      getStartAndEndDatesForWeek tz now parseISO week startOfWeek in
    WithDateRange startDate endDate in
  match c with
  | CallGetBetweenDates pkgs start finish =>
      Some {| packages := pkgs;
              period := WithDateRange (date_of parseISO start) (date_of parseISO finish);
              requestType := point |}
  | CallGetDailyDownloadsForLastMonth pkgs =>
      Some {| packages := pkgs; period := WithKeyword last_month; requestType := range |}
  | CallGetDailyDownloadsForLastWeek pkgs =>
      Some {| packages := pkgs; period := WithKeyword last_week; requestType := range |}
  | CallGetDailyDownloadsForMonth => None
  | CallGetDailyDownloadsForWeek pkgs week startOfWeek =>
      Some {| packages := pkgs;
              period := week_range week startOfWeek;
              requestType := range |}
  | CallGetDay pkgs date =>
      Some {| packages := pkgs; period := WithSingleDate date; requestType := point |}
  | CallGetLastDay pkgs =>
      Some {| packages := pkgs; period := WithKeyword last_day; requestType := point |}
  | CallGetLastMonth pkgs =>
      Some {| packages := pkgs; period := WithKeyword last_month; requestType := point |}
  | CallGetLastWeek pkgs =>
      Some {| packages := pkgs; period := WithKeyword last_week; requestType := point |}
  | CallGetMonth => None
  | CallGetWeek pkgs week startOfWeek =>
      Some {| packages := pkgs;
              period := week_range week startOfWeek;
              requestType := point |}
  end.

(** The requests an operation dispatches, as the promises they return. *)
Definition dispatched (tz : Z) (requestService : IRequestService)
  (options : MakeRequestPathOptions) : list Settled :=
  map_indexed (fun i p => requestService i (path_only p)) O
    (makeRequestPaths tz options).

(** The path built for one package alone. *)
Definition path_for (tz : Z) (options : MakeRequestPathOptions) (packageName : string)
  : list string :=
  makeRequestPaths tz
    {| packages := [packageName];
       requestType := requestType options;
       period := period options |}.

(** The request service of [src/RequestService.ts] behind the interface,
    for an operation that dispatches a single request: a fresh run of
    [request] on the instance against the remote. *)
Definition sole_request (server : nat -> string -> FetchResult)
  (self : RequestService.RequestService) : IRequestService :=
  fun i options =>
    {| settledAt := i;
       outcome := fst (fst (RequestService.request server self (Some options) [])) |}.

(** A point response for a package. *)
Definition point_document (packageName : string) (downloads : Z) : Json :=
  JObject [ ("downloads", JNumber downloads);
            ("start", JString "2023-05-15");
            ("end", JString "2023-05-15");
            ("package", JString packageName) ].

(** The same response once validated: the keys in the order of the schema. *)
Definition parsed_point_document (packageName : string) (downloads : Z) : Json :=
  JObject [ ("package", JString packageName);
            ("downloads", JNumber downloads);
            ("start", JString "2023-05-15");
            ("end", JString "2023-05-15") ].

(** A response that lacks its [package] field. *)
Definition nameless_document : Json :=
  JObject [ ("downloads", JNumber 2165);
            ("start", JString "2023-05-08");
            ("end", JString "2023-05-14") ].

(** The issue the validation reports for it. *)
Definition package_required : ZodIssue :=
  {| JS.code := "invalid_type";
     JS.expected := "string";
     JS.received := "undefined";
     JS.path := [Key "package"];
     JS.issue_message := "Required" |}.

(** A request service for two packages: the second request settles before
    the first; each resolves to a point response that echoes its path. *)
Definition echo_service : IRequestService :=
  fun i options =>
    {| settledAt := 10 - i;
       outcome :=
         ret (point_document (or_default (RequestService.path options) "")
                (Z.of_nat i)) |}.

(** A request service whose second request is refused with status 401
    while the others resolve. *)
Definition refusing_service : IRequestService :=
  fun i options =>
    {| settledAt := i;
       outcome :=
         if Nat.eqb i 1 then throw (bad_status 401)
         else ret (point_document "@aws-lambda-powertools/logger" 2165) |}.

End Terms.

(** ** Further vocabulary *)

Module MoreTerms.
Import JS RequestService NpmDownloadCountClient Terms.

(** [n] attempts that each met a retriable status and were waited out. *)
Fixpoint waited_out (attempt : Event) (wait : Z) (n : nat) : World :=
  match n with
  | O => []
  | S k => attempt :: Slept wait :: waited_out attempt wait k
  end.

(** The fetch a call makes for its options, once the query is serialized. *)
Definition attempt_of (self : RequestService.RequestService)
  (options : option RequestOptions) (query : string) : Event :=
  Fetched (basePath self ++ path_of options ++ query)
    (method_of options) (body_of options).

(** The error of a body that is not JSON, with the parser's error as cause. *)
Definition not_json (cause : Thrown) : Thrown :=
  JsError "API endpoint returned a non JSON response" (Some cause).

(** What [toISOString] throws on an invalid date. *)
Definition invalid_time_value : Thrown := HostError "RangeError" "Invalid time value".

(** A remote that answers the first [failures] fetches with status 503 and
    every later one with [reply]. *)
Definition flaky (failures : nat) (reply : FetchResult) : nat -> string -> FetchResult :=
  fun n _ =>
    if (n <? failures)%nat
    then Responded {| status := 503; json := throw (HostError "SyntaxError" "") |}
    else reply.

(** A response with a status and a JSON body. *)
Definition responding (code : Z) (document : Result Json) : FetchResult :=
  Responded {| status := code; json := document |}.

(** The characters that can occur in a serialized query string. *)
Definition query_safe (c : ascii) : bool :=
  is_alphanumeric c || char_in c "*-._+%=&".

(** The two hexadecimal digits of a byte. *)
Definition hex_pair (c : ascii) : string :=
  let n := nat_of_ascii c in
  String (hex_digit (n / 16)) (String (hex_digit (n mod 16)) EmptyString).

(** How one character of a string value reaches the URL: as it is, escaped
    once, or escaped twice (the [%] of its first escape escaped again). *)
Definition emitted_char (c : ascii) : string :=
  if urlencoded_keeps c then String c EmptyString
  else if encodeURI_keeps c then "%" ++ hex_pair c
  else "%25" ++ hex_pair c.

Fixpoint emitted_string (s : string) : string :=
  match s with
  | EmptyString => EmptyString
  | String c rest => emitted_char c ++ emitted_string rest
  end.

(** A validated point response. *)
Definition point_record (package : string) (downloads : Z) (start finish : string)
  : Json :=
  JObject [ ("package", JString package);
            ("downloads", JNumber downloads);
            ("start", JString start);
            ("end", JString finish) ].

(** A validated range response. *)
Definition range_record (package start finish : string) (days : list Json) : Json :=
  JObject [ ("package", JString package);
            ("start", JString start);
            ("end", JString finish);
            ("downloads", JArray days) ].

(** One day of a range response, reduced to its two fields; [None] when it
    is not an object with a numeric [downloads] and a string [day]. *)
Definition strip_day (item : Json) : option Json :=
  match item with
  | JObject fields =>
      match get_field "downloads" fields, get_field "day" fields with
      | Some (JNumber n), Some (JString day) =>
          Some (JObject [("downloads", JNumber n); ("day", JString day)])
      | _, _ => None
      end
  | _ => None
  end.

Fixpoint strip_days (items : list Json) : option (list Json) :=
  match items with
  | [] => Some []
  | item :: rest =>
      match strip_day item, strip_days rest with
      | Some day, Some days => Some (day :: days)
      | _, _ => None
      end
  end.

(** The loop of an array schema over the items, from index [i]. *)
Definition check_each (element : Zod.ZodType) (at_path : list PathSegment)
  : list Json -> nat -> list ZodIssue * list Json :=
  fix each (items : list Json) (i : nat) : list ZodIssue * list Json :=
    match items with
    | [] => ([], [])
    | item :: rest =>
        let '(issues, value) :=
          Zod.check element (at_path ++ [Index i]) (Some item) in
        let '(more, values) := each rest (S i) in
        (issues ++ more, value :: values)
    end%list.

(** The loop of an object schema over the keys of its shape. *)
Definition check_fields (fields : list (string * Json)) (at_path : list PathSegment)
  : list (string * Zod.ZodType) -> list ZodIssue * list (string * Json) :=
  fix each (shape : list (string * Zod.ZodType))
    : list ZodIssue * list (string * Json) :=
    match shape with
    | [] => ([], [])
    | (key, field_schema) :: rest =>
        let '(issues, value) :=
          Zod.check field_schema (at_path ++ [Key key]) (get_field key fields) in
        let '(more, values) := each rest in
        (issues ++ more, (key, value) :: values)
    end%list.

(** The schema of one day of a range response. *)
Definition day_schema : Zod.ZodType :=
  Zod.ZObject [ ("downloads", Zod.ZNumber); ("day", Zod.ZString) ].

(** A request service that resolves every request to the same point
    response. *)
Definition steady_service : IRequestService :=
  fun i _ =>
    {| settledAt := i;
       outcome := ret (point_document "@aws-lambda-powertools/logger" 2165) |}.

(** A request service whose responses all lack the [package] field, the
    second one the [start] field as well. *)
Definition nameless_service : IRequestService :=
  fun i _ =>
    {| settledAt := i;
       outcome :=
         if Nat.eqb i 1
         then ret (JObject [("downloads", JNumber 1); ("end", JString "2023-05-14")])
         else ret nameless_document |}.

(** A request service whose requests are all refused, the later ones
    sooner: request [i] is rejected at time [10 - i] with status [400 + i]. *)
Definition hasty_service : IRequestService :=
  fun i _ =>
    {| settledAt := 10 - i; outcome := throw (bad_status (400 + Z.of_nat i)) |}.

End MoreTerms.

(** * Properties of the request service *)

Module RequestServiceFacts.
Import JS RequestService Terms.

(** One unfolding of [request], in the shape of the source. *)
Lemma request_eq server self options world :
  request server self options world =
  match query_of options with
  | inl err => (throw err, self, world)
  | inr query =>
      match fetch server (basePath self ++ path_of options ++ query)
              (method_of options) (body_of options) world with
      | (FetchRejected err, after) => (throw err, self, after)
      | (Responded response, after) =>
          if ok response then
            match json response with
            | inr document => (ret document, with_count self 0, after)
            | inl err =>
                (throw (JsError "API endpoint returned a non JSON response" (Some err)),
                 with_count self 0, after)
            end
          else if isRetriableCode (status response) then
            if Z_lt_dec (count (requestRetry self)) (maxRetries (requestRetry self)) then
              request server (with_count self (count (requestRetry self) + 1)) options
                (after ++ [Slept (delay (requestRetry self))])%list
            else if Z_ge_dec (count (requestRetry self)) (maxRetries (requestRetry self)) then
              (throw max_retries_exceeded, self, after)
            else (throw (bad_status (status response)), with_count self 0, after)
          else (throw (bad_status (status response)), with_count self 0, after)
      end
  end.
Proof.
  rewrite request_equation_1 at 1.
  unfold request_unfold_clause_1.
  destruct (query_of options) as [err | query]; [reflexivity |].
  unfold request_unfold_clause_1_clause_2.
  destruct (fetch server _ _ _ world) as [[err | response] after]; [reflexivity |].
  unfold request_unfold_clause_1_clause_2_clause_2.
  destruct (ok response).
  - unfold request_unfold_clause_1_clause_2_clause_2_clause_2.
    destruct (json response); reflexivity.
  - unfold request_unfold_clause_1_clause_2_clause_2_clause_1.
    unfold request_unfold_clause_1_clause_2_clause_2_clause_1_clause_1.
    destruct (Z_lt_dec _ _);
      destruct (isRetriableCode (status response)); try reflexivity.
    unfold request_unfold_clause_1_clause_2_clause_2_clause_1_clause_1_clause_2.
    destruct (Z_ge_dec _ _); reflexivity.
Qed.

Lemma attempts_app (w1 w2 : World) :
  attempts (w1 ++ w2)%list = (attempts w1 + attempts w2)%nat.
Proof. unfold attempts. rewrite filter_app, length_app. reflexivity. Qed.

Lemma attempts_cons_fetch url how payload (world : World) :
  attempts (Fetched url how payload :: world) = S (attempts world).
Proof. reflexivity. Qed.

Lemma attempts_retries attempt wait n :
  is_fetch attempt = true -> attempts (retries attempt wait n) = n.
Proof.
  intros Hf. induction n as [| n IH]; [reflexivity |].
  unfold attempts in *. simpl. rewrite Hf. simpl. now rewrite IH.
Qed.

Lemma retriable_status (response : Response) :
  In (status response) [500; 502; 503; 504] ->
  ok response = false /\ isRetriableCode (status response) = true.
Proof.
  unfold ok. simpl.
  intros [H | [H | [H | [H | []]]]]; rewrite <- H; split; reflexivity.
Qed.

Lemma other_status (response : Response) :
  ~ 200 <= status response <= 299 ->
  ~ In (status response) [500; 502; 503; 504] ->
  ok response = false /\ isRetriableCode (status response) = false.
Proof.
  intros Hok Hcode. split.
  - unfold ok. apply andb_false_iff.
    destruct (Z.leb_spec 200 (status response)); [right | now left].
    apply Z.leb_gt. lia.
  - unfold isRetriableCode. simpl.
    repeat match goal with
           | |- context [Z.eqb ?a ?b] =>
               destruct (Z.eqb_spec a b) as [Heq | _];
               [exfalso; apply Hcode; rewrite Heq; simpl; tauto |]
           end.
    reflexivity.
Qed.

(** A run that meets a retriable status on every attempt uses up what is
    left of the budget and then gives up; the counter stays at the bound. *)
Lemma request_exhaustion server options query :
  query_of options = inr query ->
  forall (k : nat) (self : RequestService) (world : World),
    maxRetries (requestRetry self) - count (requestRetry self) = Z.of_nat k ->
    (forall n url, (attempts world <= n <= attempts world + k)%nat ->
                   retriable_reply (server n url)) ->
    request server self options world =
    (throw max_retries_exceeded,
     with_count self (maxRetries (requestRetry self)),
     (world
        ++ Fetched (basePath self ++ path_of options ++ query)
             (method_of options) (body_of options)
        :: retries (Fetched (basePath self ++ path_of options ++ query)
                      (method_of options) (body_of options))
             (delay (requestRetry self)) k)%list).
Proof.
  intros Hquery k.
  induction k as [| k IH]; intros self world Hbudget Hserver.
  - rewrite request_eq, Hquery. unfold fetch.
    destruct (Hserver (attempts world) (basePath self ++ path_of options ++ query))
      as (response & -> & Hstatus); [lia |].
    destruct (retriable_status response Hstatus) as [-> ->].
    destruct (Z_lt_dec _ _) as [Hlt | _]; [lia |].
    destruct (Z_ge_dec _ _) as [_ | Hge]; [| lia].
    replace (maxRetries (requestRetry self)) with (count (requestRetry self)) at 1 by lia.
    destruct self as [[c m d] b]; reflexivity.
  - rewrite request_eq, Hquery. unfold fetch.
    destruct (Hserver (attempts world) (basePath self ++ path_of options ++ query))
      as (response & -> & Hstatus); [lia |].
    destruct (retriable_status response Hstatus) as [-> ->].
    destruct (Z_lt_dec _ _) as [_ | Hge]; [| lia].
    rewrite IH.
    + simpl. rewrite <- !app_assoc. reflexivity.
    + simpl. lia.
    + intros n url Hn. apply Hserver.
      rewrite !attempts_app in Hn. unfold attempts in *. simpl in Hn. lia.
Qed.

(** Where a call leaves the counter: at zero, unless it gave up after the
    last retry or never got a response at all. *)
Lemma request_count_after server self options world :
  count (requestRetry (snd (fst (request server self options world)))) = 0 \/
  fst (fst (request server self options world)) = throw max_retries_exceeded \/
  (exists err,
      fst (fst (request server self options world)) = throw err /\
      (query_of options = inl err \/ exists n url, server n url = FetchRejected err)).
Proof.
  funelim (request server self options world); simpl; auto.
  - right; right. exists err. auto.
  - right; right. exists err. split; [reflexivity |]. right.
    unfold fetch in *. inversion Heq. eauto.
Qed.

(** C2: a freshly constructed service with retry bound [R >= 0] that meets a
    retriable status (500, 502, 503 or 504) on each of its first [R + 1]
    fetches performs exactly [R + 1] fetch attempts, the initial one and [R]
    retries each preceded by the configured delay, and then fails with the
    max-retries-exceeded error. *)
Theorem request_gives_up_after_maxRetries_retries
  (server : nat -> string -> FetchResult) (config : option RequestServiceConfig)
  (options : option RequestOptions) (query : string) :
  let self := constructor config in
  let R := maxRetries (requestRetry self) in
  let attempt :=
    Fetched (basePath self ++ path_of options ++ query)
      (method_of options) (body_of options) in
  0 <= R ->
  query_of options = inr query ->
  (forall n url, (n <= Z.to_nat R)%nat -> retriable_reply (server n url)) ->
  fst (fst (request server self options [])) =
    throw (JsError
             "API endpoint failed to provide a valid response, max retries exceeded"
             None)
  /\ snd (request server self options []) =
       attempt :: retries attempt (delay (requestRetry self)) (Z.to_nat R)
  /\ Z.of_nat (attempts (snd (request server self options []))) = R + 1.
Proof.
  intros self R attempt HR Hquery Hserver.
  assert (Hbudget : maxRetries (requestRetry self) - count (requestRetry self) =
                    Z.of_nat (Z.to_nat R)).
  { subst R self. simpl in *. lia. }
  assert (Hreplies : forall n url,
             (attempts [] <= n <= attempts [] + Z.to_nat R)%nat ->
             retriable_reply (server n url)).
  { intros n url Hn. apply Hserver. unfold attempts in Hn. simpl in Hn. lia. }
  rewrite (request_exhaustion server options query Hquery
             (Z.to_nat R) self [] Hbudget Hreplies).
  cbn [fst snd app]. repeat split.
  rewrite attempts_cons_fetch, attempts_retries by reflexivity. lia.
Qed.

Lemma request_gives_up_after_maxRetries_retries_witness :
  fst (fst (request (always 500) (constructor (retry_config 2 0)) None [])) =
    throw (JsError
             "API endpoint failed to provide a valid response, max retries exceeded"
             None)
  /\ snd (request (always 500) (constructor (retry_config 2 0)) None []) =
       [ Fetched "/downloads" GET None; Slept 0;
         Fetched "/downloads" GET None; Slept 0;
         Fetched "/downloads" GET None ]
  /\ Z.of_nat (attempts (snd (request (always 500) (constructor (retry_config 2 0))
                                None []))) = 3.
Proof.
  apply (request_gives_up_after_maxRetries_retries
           (always 500) (retry_config 2 0) None "").
  - simpl. lia.
  - reflexivity.
  - intros n url _. eexists. split; [reflexivity |]. simpl. auto.
Defined.

(** C3, at the input where the code departs from it: with [maxRetries = 2]
    and a remote that answers 500 three times, the call fails with the
    max-retries-exceeded error and leaves the retry counter at 2, not 0; the
    next call on the same instance then gives up after one attempt, without
    any retry. *)
Theorem count_is_not_reset_after_max_retries_exceeded :
  let first := request (always 500) (constructor (retry_config 2 0)) None [] in
  let self' := snd (fst first) in
  fst (fst first) = throw max_retries_exceeded
  /\ count (requestRetry self') = 2
  /\ count (requestRetry self') <> 0
  /\ request (always 500) self' None [] =
       (throw max_retries_exceeded, self', [Fetched "/downloads" GET None]).
Proof.
  vm_compute. repeat split. discriminate.
Qed.

(** C9: on a response whose status is neither 2xx nor one of 500, 502, 503
    and 504, [request] fails after that single fetch, without retry or delay,
    with the message "API endpoint returned status code <code>". *)
Theorem request_fails_at_once_on_other_status
  (server : nat -> string -> FetchResult) (self : RequestService)
  (options : option RequestOptions) (world : World) (query : string)
  (response : Response) :
  query_of options = inr query ->
  server (attempts world) (basePath self ++ path_of options ++ query) =
    Responded response ->
  ~ 200 <= status response <= 299 ->
  ~ In (status response) [500; 502; 503; 504] ->
  fst (fst (request server self options world)) =
    throw (JsError
             ("API endpoint returned status code "
                ++ number_to_string (status response)) None)
  /\ snd (request server self options world) =
       (world ++ [Fetched (basePath self ++ path_of options ++ query)
                    (method_of options) (body_of options)])%list
  /\ attempts (snd (request server self options world)) = S (attempts world).
Proof.
  intros Hquery Hserver Hok Hcode.
  destruct (other_status response Hok Hcode) as [Hok' Hcode'].
  rewrite request_eq, Hquery. unfold fetch. rewrite Hserver, Hok', Hcode'.
  simpl. repeat split.
  rewrite attempts_app. unfold attempts. simpl. lia.
Qed.

Lemma request_fails_at_once_on_other_status_witness :
  fst (fst (request (always 401) (constructor None) None [])) =
    throw (JsError "API endpoint returned status code 401" None)
  /\ snd (request (always 401) (constructor None) None []) =
       [Fetched "/downloads" GET None]
  /\ attempts (snd (request (always 401) (constructor None) None [])) = 1%nat.
Proof.
  apply (request_fails_at_once_on_other_status
           (always 401) (constructor None) None [] ""
           {| status := 401;
              json := throw (HostError "SyntaxError" "Unexpected end of JSON input") |}).
  - reflexivity.
  - reflexivity.
  - simpl. lia.
  - simpl. intros [H | [H | [H | [H | []]]]]; discriminate.
Defined.

End RequestServiceFacts.

(** * Properties of the query serializer *)

Module SerializerFacts.
Import JS RequestService Terms.

Lemma append_assoc (a b c : string) : (a ++ b) ++ c = a ++ (b ++ c).
Proof. induction a as [| x a IH]; simpl; [reflexivity | now rewrite IH]. Qed.

Lemma string_forall_impl (p q : ascii -> bool) (s : string) :
  (forall c, p c = true -> q c = true) ->
  string_forall p s = true -> string_forall q s = true.
Proof.
  intros Hpq. induction s as [| c s IH]; simpl; [reflexivity |].
  intros H. apply andb_prop in H as [Hc Hs]. now rewrite (Hpq c Hc), IH.
Qed.

(** A number prints as digits, after a minus sign at most. *)
(** An integer that every double holds exactly is printed digit by digit. *)
Lemma number_to_string_exact (n : Z) :
  Z.abs n <= 2 ^ 53 -> number_to_string n = digits_of n.
Proof.
  intros Hn. unfold number_to_string.
  destruct (Z.leb_spec (Z.abs n) (2 ^ 53)) as [_ | Hlt]; [reflexivity | lia].
Qed.

Lemma digits_of_chars (n : Z) : string_forall digit_or_minus (digits_of n) = true.
Proof.
  assert (Hd : forall d, string_forall digit_or_minus (NilZero.string_of_uint d) = true).
  { intros d. destruct d; try reflexivity; simpl; (induction d; simpl; auto). }
  unfold digits_of. destruct (Z.to_int n); simpl; auto.
Qed.

Lemma number_to_string_chars (n : Z) :
  Z.abs n <= 2 ^ 53 -> string_forall digit_or_minus (number_to_string n) = true.
Proof.
  intros Hn. rewrite (number_to_string_exact n Hn). apply digits_of_chars.
Qed.

Lemma urlencoded_kept (s : string) :
  string_forall urlencoded_keeps s = true -> urlencoded s = s.
Proof.
  induction s as [| c s IH]; simpl; [reflexivity |].
  intros H. apply andb_prop in H as [Hc Hs].
  rewrite Hc, (IH Hs).
  destruct (Ascii.eqb_spec c " ") as [-> | _]; [discriminate | reflexivity].
Qed.

Lemma digit_or_minus_kept (c : ascii) :
  digit_or_minus c = true -> urlencoded_keeps c = true.
Proof.
  unfold digit_or_minus, urlencoded_keeps, is_alphanumeric.
  intros H. apply orb_prop in H as [H | H].
  - rewrite H. now rewrite !orb_true_r.
  - apply Ascii.eqb_eq in H. subst. reflexivity.
Qed.

(** The form encoding leaves a printed number as it is. *)
Lemma urlencoded_number (n : Z) :
  Z.abs n <= 2 ^ 53 -> urlencoded (number_to_string n) = number_to_string n.
Proof.
  intros Hn. apply urlencoded_kept.
  apply (string_forall_impl digit_or_minus); [apply digit_or_minus_kept |].
  now apply number_to_string_chars.
Qed.

Lemma urlencoded_not_question (s rest : string) :
  startsWith rest "?" = false -> startsWith (urlencoded s ++ rest) "?" = false.
Proof.
  intros Hrest. destruct s as [| c s]; simpl; [exact Hrest |].
  destruct (Ascii.eqb c " "); [reflexivity |].
  destruct (urlencoded_keeps c) eqn:Hk; [| reflexivity].
  simpl. destruct (Ascii.eqb_spec c "?"%char) as [-> | Hne]; [discriminate | reflexivity].
Qed.

(** The serialized parameters never begin with a question mark. *)
Lemma toString_not_question (query : URLSearchParams) :
  startsWith (toString query) "?" = false.
Proof.
  destruct query as [| p rest]; [reflexivity |].
  unfold toString. simpl.
  destruct (map pair_toString rest) as [| x xs]; unfold pair_toString.
  - apply urlencoded_not_question. reflexivity.
  - rewrite append_assoc. apply urlencoded_not_question. reflexivity.
Qed.

Lemma serialize_entries_app (l1 l2 : list (string * Value)) (query : URLSearchParams) :
  serialize_entries query (l1 ++ l2) =
  bind (serialize_entries query l1) (fun q => serialize_entries q l2).
Proof.
  revert query. induction l1 as [| e l1 IH]; intros query; simpl; [reflexivity |].
  destruct (serialize_entry query e) as [err | q]; simpl; [reflexivity | apply IH].
Qed.

(** An entry that the serializer passes over can be dropped from the
    mapping, wherever it stands. *)
Lemma serialize_skips (before after : list (string * Value)) (key : string)
  (value : Value) :
  (forall query, serialize_entry query (key, value) = ret query) ->
  serializeQueryParams (before ++ (key, value) :: after) =
  serializeQueryParams (before ++ after).
Proof.
  intros Hskip. unfold serializeQueryParams.
  rewrite !serialize_entries_app.
  destruct (serialize_entries [] before) as [err | q]; cbn [bind]; [reflexivity |].
  cbn [serialize_entries]. now rewrite Hskip.
Qed.

(** C6: the mapping [{foo: 'bar@', baz: 1, bar: undefined}] serializes to
    exactly [foo=bar%40&baz=1], to which the caller prepends [?]; in any
    mapping a key whose value is null or undefined is omitted; the [@] of a
    string value comes out as [%40]; a numeric value that holds an integer
    of at most [2^53] in magnitude is kept bare: its decimal digits, after a
    [-] when it is negative, and nothing else. *)
Theorem serializes_the_documented_mapping (key : string) (n : Z) :
  Z.abs n <= 2 ^ 53 ->
  serializeQueryParams
    [("foo", VString "bar@"); ("baz", VNumber 1); ("bar", VUndefined)]
  = ret [("foo", "bar@"); ("baz", "1")]
  /\ toString [("foo", "bar@"); ("baz", "1")] = "foo=bar%40&baz=1"
  /\ query_of (with_params
                 [("foo", VString "bar@"); ("baz", VNumber 1); ("bar", VUndefined)])
     = ret "?foo=bar%40&baz=1"
  /\ (forall before key after,
         serializeQueryParams (before ++ (key, VUndefined) :: after) =
         serializeQueryParams (before ++ after))
  /\ (forall before key after,
         serializeQueryParams (before ++ (key, VNull) :: after) =
         serializeQueryParams (before ++ after))
  /\ query_of (with_params [(key, VString "@")]) = ret ("?" ++ urlencoded key ++ "=%40")
  /\ query_of (with_params [(key, VNumber n)]) =
     ret ("?" ++ urlencoded key ++ "=" ++ digits_of n)
  /\ number_to_string n = digits_of n
  /\ string_forall digit_or_minus (digits_of n) = true.
Proof.
  intros Hn.
  split; [reflexivity |].
  split; [reflexivity |].
  split; [reflexivity |].
  split.
  { intros before k after. apply serialize_skips. reflexivity. }
  split.
  { intros before k after. apply serialize_skips. reflexivity. }
  split; [reflexivity |].
  split.
  { unfold query_of, with_params. cbn [queryParams].
    unfold serializeQueryParams. cbn [serialize_entries serialize_entry bind ret].
    unfold toString, pair_toString, append. cbn [map fst snd app String.concat].
    now rewrite (urlencoded_number n Hn), (number_to_string_exact n Hn). }
  split; [now apply number_to_string_exact | apply digits_of_chars].
Qed.

Lemma serializes_the_documented_mapping_witness :
  serializeQueryParams
    [("foo", VString "bar@"); ("baz", VNumber 1); ("bar", VUndefined)]
  = ret [("foo", "bar@"); ("baz", "1")]
  /\ toString [("foo", "bar@"); ("baz", "1")] = "foo=bar%40&baz=1"
  /\ query_of (with_params
                 [("foo", VString "bar@"); ("baz", VNumber 1); ("bar", VUndefined)])
     = ret "?foo=bar%40&baz=1"
  /\ (forall before key after,
         serializeQueryParams (before ++ (key, VUndefined) :: after) =
         serializeQueryParams (before ++ after))
  /\ (forall before key after,
         serializeQueryParams (before ++ (key, VNull) :: after) =
         serializeQueryParams (before ++ after))
  /\ query_of (with_params [("baz", VString "@")]) = ret ("?" ++ urlencoded "baz" ++ "=%40")
  /\ query_of (with_params [("baz", VNumber 1)]) =
     ret ("?" ++ urlencoded "baz" ++ "=" ++ digits_of 1)
  /\ number_to_string 1 = digits_of 1
  /\ string_forall digit_or_minus (digits_of 1) = true.
Proof.
  apply (serializes_the_documented_mapping "baz" 1). simpl. lia.
Defined.

(** C7, as it is stated, fails: a mapping that holds only null or undefined
    values, and an empty mapping, serialize to nothing, yet the URL handed to
    [fetch] ends with a question mark. *)
Lemma question_mark_without_parameters :
  ~ (forall server self params world,
        serializeQueryParams params = ret [] ->
        forall url how payload,
          In (Fetched url how payload)
             (snd (request server self (with_params params) world)) ->
          endsWith_char url "?" = false).
Proof.
  intros H.
  specialize (H (always 200) (constructor None)
                [("foo", VUndefined); ("bar", VNull)] [] eq_refl
                "/downloads?" GET None).
  assert (Hin : In (Fetched "/downloads?" GET None)
                   (snd (request (always 200) (constructor None)
                           (with_params [("foo", VUndefined); ("bar", VNull)]) []))).
  { vm_compute. auto. }
  specialize (H Hin). discriminate H.
Qed.

(** C7, amended: the serialized query string never begins with a question
    mark, and [request] prepends one exactly when a mapping of query
    parameters is supplied, whatever survives of it: with a mapping the query
    part is [?] followed by the serialized parameters, a bare [?] when none
    survives, and without a mapping it is empty. *)
Theorem question_mark_follows_the_mapping (options : option RequestOptions)
  (query : string) :
  query_of options = ret query ->
  match options with
  | Some {| queryParams := Some params |} =>
      exists serialized,
        serializeQueryParams params = ret serialized
        /\ query = "?" ++ toString serialized
        /\ startsWith (toString serialized) "?" = false
        /\ (serialized = [] -> query = "?")
  | _ => query = ""
  end.
Proof.
  unfold query_of. intros Hquery.
  destruct options as [[p m b [params |]] |]; simpl in *;
    try (injection Hquery as <-; reflexivity).
  destruct (serializeQueryParams params) as [err | serialized]; simpl in Hquery;
    [discriminate |].
  injection Hquery as <-.
  exists serialized. repeat split.
  - apply toString_not_question.
  - intros ->. reflexivity.
Qed.

Lemma question_mark_follows_the_mapping_witness :
  exists serialized,
    serializeQueryParams [("foo", VUndefined); ("bar", VNull)] = ret serialized
    /\ "?" = "?" ++ toString serialized
    /\ startsWith (toString serialized) "?" = false
    /\ (serialized = [] -> "?" = "?").
Proof.
  apply (question_mark_follows_the_mapping
           (with_params [("foo", VUndefined); ("bar", VNull)]) "?").
  reflexivity.
Defined.

(** C8, where the code departs from it: a big integer ([BigInt(42)], [42n])
    is not an instance of [BigInt], so the serializer passes over it like an
    undefined value and its key is not emitted at all. *)
Theorem bigint_values_are_dropped :
  (forall before key n after,
      serializeQueryParams (before ++ (key, VBigInt n) :: after) =
      serializeQueryParams (before ++ after))
  /\ (forall key n, query_of (with_params [(key, VBigInt n)]) = ret "?")
  /\ query_of (with_params
                 [("foo", VString "bar@"); ("baz", VNumber 1); ("bar", VBigInt 42)])
     = ret "?foo=bar%40&baz=1".
Proof.
  split.
  { intros before key n after. apply serialize_skips. reflexivity. }
  split; reflexivity.
Qed.

End SerializerFacts.

(** * Properties of the calendar *)

Module CalendarFacts.
Import JS Terms.

Lemma is_leap_spec (y : Z) :
  is_leap y = true <-> (y mod 4 = 0 /\ (y mod 100 <> 0 \/ y mod 400 = 0)).
Proof.
  unfold is_leap. split.
  - intros H. apply orb_prop in H as [H | H].
    + apply andb_prop in H as [H4 H100].
      apply Z.eqb_eq in H4. apply negb_true_iff, Z.eqb_neq in H100. auto.
    + apply Z.eqb_eq in H. split; [| now right].
      revert H. Z.div_mod_to_equations. lia.
  - intros [H4 [H100 | H400]].
    + apply Z.eqb_eq in H4. apply Z.eqb_neq in H100. now rewrite H4, H100.
    + apply Z.eqb_eq in H400. rewrite H400. apply orb_true_r.
Qed.

(** The year of the era is found again from a day of that year. *)
Lemma year_of_era_recovered (yoe doy : Z) :
  0 <= yoe < 400 -> 0 <= doy <= 365 ->
  (doy = 365 -> is_leap (yoe + 1) = true) ->
  let doe := yoe * 365 + yoe / 4 - yoe / 100 + doy in
  0 <= doe < 146097 /\
  (doe - doe / 1460 + doe / 36524 - doe / 146096) / 365 = yoe.
Proof.
  intros Hy Hd Hleap doe. subst doe.
  assert (Hl : doy <= 364 \/
               (doy = 365 /\ (yoe + 1) mod 4 = 0 /\
                ((yoe + 1) mod 100 <> 0 \/ (yoe + 1) mod 400 = 0))).
  { destruct (Z.eq_dec doy 365) as [-> | Hne]; [right | left; lia].
    split; [reflexivity |]. apply is_leap_spec. auto. }
  clear Hleap.
  Z.div_mod_to_equations; lia.
Qed.

Lemma civil_of_day_of_era (yoe m d : Z) :
  0 <= yoe < 400 -> 1 <= m <= 12 ->
  1 <= d <= days_in_month (calendar_year yoe m) m ->
  0 <= day_of_era yoe m d < 146097 /\
  civil_of_era (day_of_era yoe m d) = (yoe, m, d).
Proof.
  intros Hy Hm Hd.
  unfold day_of_era, civil_of_era.
  set (mp := (m + 9) mod 12).
  set (doy := (153 * mp + 2) / 5 + d - 1).
  assert (Hdoy : 0 <= doy <= 365 /\ (doy = 365 -> is_leap (yoe + 1) = true)
                 /\ (5 * doy + 2) / 153 = mp
                 /\ m = (if mp <? 10 then mp + 3 else mp - 9)).
  { subst doy mp. unfold days_in_month, calendar_year in Hd.
    assert (Hcases : m = 1 \/ m = 2 \/ m = 3 \/ m = 4 \/ m = 5 \/ m = 6 \/ m = 7
                     \/ m = 8 \/ m = 9 \/ m = 10 \/ m = 11 \/ m = 12) by lia.
    repeat (destruct Hcases as [-> | Hcases]); try subst m; simpl in Hd;
      try (destruct (is_leap (yoe + 1)) eqn:Hleap);
      (split; [| split; [| split]];
       [ Z.div_mod_to_equations; lia
       | intros Hlast; try reflexivity; exfalso; revert Hlast;
         Z.div_mod_to_equations; lia
       | Z.div_mod_to_equations; lia
       | reflexivity ]). }
  destruct Hdoy as (Hrange & Hleap & Hmp & Hmonth).
  destruct (year_of_era_recovered yoe doy Hy Hrange Hleap) as [Hdoe Hyoe].
  split; [exact Hdoe |].
  rewrite Hyoe.
  replace (yoe * 365 + yoe / 4 - yoe / 100 + doy - (365 * yoe + yoe / 4 - yoe / 100))
    with doy by lia.
  rewrite Hmp, <- Hmonth. f_equal. subst doy. lia.
Qed.

Lemma is_leap_era (y era : Z) : is_leap (y + era * 400) = is_leap y.
Proof.
  unfold is_leap.
  replace (era * 400) with (era * 100 * 4) at 1 by lia.
  replace (era * 400) with (era * 4 * 100) at 1 by lia.
  now rewrite !Z_mod_plus_full.
Qed.

Lemma days_in_month_era (y era m : Z) :
  days_in_month (y + era * 400) m = days_in_month y m.
Proof. unfold days_in_month. now rewrite is_leap_era. Qed.

(** Every date of the calendar is found again from its day number. *)
Lemma civil_from_days_from_civil (y m d : Z) :
  valid_date y m d -> civil_from_days (days_from_civil y m d) = (y, m, d).
Proof.
  intros [Hm Hd]. unfold days_from_civil, civil_from_days.
  set (y' := if m <=? 2 then y - 1 else y).
  set (era := y' / 400).
  set (yoe := y' - era * 400).
  assert (Hyoe : 0 <= yoe < 400).
  { subst yoe era. pose proof (Z.mod_pos_bound y' 400 ltac:(lia)) as Hb.
    rewrite Z.mod_eq in Hb by lia. lia. }
  assert (Hy : y = calendar_year yoe m + era * 400).
  { unfold calendar_year. subst yoe y'. destruct (m <=? 2); lia. }
  destruct (civil_of_day_of_era yoe m d Hyoe Hm) as [Hdoe Hcivil].
  { rewrite <- (days_in_month_era _ era), <- Hy. exact Hd. }
  set (doe := day_of_era yoe m d) in *.
  replace (era * 146097 + doe - 719468 + 719468) with (doe + era * 146097) by lia.
  rewrite Z.div_add, (Z.div_small doe) by lia.
  replace (doe + era * 146097 - (0 + era) * 146097) with doe by lia.
  rewrite Hcivil, Hy. unfold calendar_year.
  destruct (m <=? 2); f_equal; f_equal; lia.
Qed.



Lemma local_day_start_of_day (tz day : Z) :
  local_day tz (day * msPerDay - tz) = day.
Proof.
  unfold local_day. replace (day * msPerDay - tz + tz) with (day * msPerDay) by lia.
  apply Z.div_mul. discriminate.
Qed.

Lemma local_day_end_of_day (tz day : Z) :
  local_day tz (day * msPerDay + (msPerDay - 1) - tz) = day.
Proof.
  unfold local_day.
  replace (day * msPerDay + (msPerDay - 1) - tz + tz)
    with ((msPerDay - 1) + day * msPerDay) by lia.
  unfold msPerDay. rewrite Z.div_add, Z.div_small by lia. lia.
Qed.






(** A positive integer is written without a leading zero. *)
Lemma digits_of_unpadded (n : Z) :
  0 < n -> startsWith (digits_of n) "0" = false.
Proof.
  intros Hn. destruct n as [| p |]; try lia. unfold digits_of. simpl.
  assert (Hnorm : Decimal.unorm (Pos.to_uint p) = Pos.to_uint p).
  { rewrite <- DecimalPos.Unsigned.to_of, DecimalPos.Unsigned.of_to. reflexivity. }
  assert (Hhead : forall d, match Decimal.nzhead d with Decimal.D0 _ => False | _ => True end).
  { induction d; simpl; auto. }
  pose proof (DecimalPos.Unsigned.to_uint_nonzero p) as Hnz.
  destruct (Pos.to_uint p) as [| d | d | d | d | d | d | d | d | d | d] eqn:Hu;
    try reflexivity.
  - exfalso. exact (DecimalPos.Unsigned.to_uint_nonnil p Hu).
  - exfalso. unfold Decimal.unorm in Hnorm. simpl in Hnorm.
    specialize (Hhead d).
    destruct (Decimal.nzhead d); try discriminate; try contradiction.
    injection Hnorm as <-. contradiction.
Qed.

Lemma number_to_string_unpadded (n : Z) :
  0 < n <= 2 ^ 53 -> startsWith (number_to_string n) "0" = false.
Proof.
  intros Hn. rewrite SerializerFacts.number_to_string_exact by lia.
  apply digits_of_unpadded. lia.
Qed.

(** The fields of a calendar date are far below [2^53]. *)
Lemma days_in_month_le (y m : Z) : days_in_month y m <= 31.
Proof.
  unfold days_in_month.
  destruct (m =? 2); [destruct (is_leap y); lia |].
  destruct ((m =? 4) || (m =? 6) || (m =? 9) || (m =? 11)); lia.
Qed.

End CalendarFacts.

(** * Properties of the client *)

Module ClientFacts.
Import JS Terms NpmDownloadCountClient.

(** ** What [map_throwing], [map_indexed] and [Promise.all] preserve *)

Lemma map_throwing_values {A B : Type} (f : A -> Result B) (items : list A)
  (values : list B) :
  map_throwing f items = ret values ->
  length values = length items
  /\ forall i x, nth_error items i = Some x ->
                 exists y, f x = ret y /\ nth_error values i = Some y.
Proof.
  revert values. induction items as [| x items IH]; intros values; simpl.
  - intros [= <-]. split; [reflexivity |]. intros [| i] y; discriminate.
  - destruct (f x) as [e | y] eqn:Hx; simpl; [discriminate |].
    destruct (map_throwing f items) as [e | ys]; simpl; [discriminate |].
    intros [= <-]. destruct (IH ys eq_refl) as [Hlen Hnth].
    split; [simpl; now rewrite Hlen |].
    intros [| i] x'; simpl.
    + intros [= <-]. eauto.
    + apply Hnth.
Qed.

Lemma map_throwing_throws {A B : Type} (f : A -> Result B) (items : list A)
  (e : Thrown) :
  map_throwing f items = throw e ->
  exists i x, nth_error items i = Some x /\ f x = throw e.
Proof.
  induction items as [| x items IH]; simpl; [discriminate |].
  destruct (f x) as [e' | y] eqn:Hx; simpl.
  - intros [= <-]. exists O, x. auto.
  - destruct (map_throwing f items) as [e' | ys]; simpl; [| discriminate].
    intros [= <-]. destruct (IH eq_refl) as (i & x' & Hnth & Hf).
    exists (S i), x'. auto.
Qed.

Lemma map_throwing_fails {A B : Type} (f : A -> Result B) (items : list A)
  (i : nat) (x : A) (e : Thrown) :
  nth_error items i = Some x -> f x = throw e ->
  exists e', map_throwing f items = throw e'.
Proof.
  revert i. induction items as [| x' items IH]; intros [| i]; simpl; try discriminate.
  - intros [= ->] ->. simpl. eauto.
  - intros Hnth Hf. destruct (f x'); simpl; [eauto |].
    destruct (IH i Hnth Hf) as [e' ->]. simpl. eauto.
Qed.

Lemma nth_error_map_indexed {A B : Type} (f : nat -> A -> B) (items : list A)
  (start i : nat) :
  nth_error (map_indexed f start items) i = option_map (f (start + i)%nat) (nth_error items i).
Proof.
  revert start i. induction items as [| x items IH]; intros start [| i]; simpl;
    try reflexivity.
  - now rewrite Nat.add_0_r.
  - rewrite IH. now rewrite Nat.add_succ_r.
Qed.

Lemma length_map_indexed {A B : Type} (f : nat -> A -> B) (items : list A) (start : nat) :
  length (map_indexed f start items) = length items.
Proof.
  revert start. induction items as [| x items IH]; intros start; simpl;
    [reflexivity | now rewrite IH].
Qed.

(** The rejection [Promise.all] reports is that of one of its promises. *)
Lemma first_rejection_is_one (promises : list Settled) (t : nat) (e : Thrown) :
  first_rejection promises = Some (t, e) ->
  exists i p, nth_error promises i = Some p /\ outcome p = throw e.
Proof.
  revert t e. induction promises as [| p promises IH]; intros t e; simpl;
    [discriminate |].
  destruct (outcome p) as [e0 | v] eqn:Hp.
  - destruct (first_rejection promises) as [[t' e'] |].
    + destruct (t' <? settledAt p)%nat.
      * intros [= <- <-]. destruct (IH t' e' eq_refl) as (i & q & Hnth & Hq).
        exists (S i), q. auto.
      * intros [= <- <-]. exists O, p. auto.
    + intros [= <- <-]. exists O, p. auto.
  - intros H. destruct (IH t e H) as (i & q & Hnth & Hq). exists (S i), q. auto.
Qed.

(** Without a rejection to report, no promise was rejected. *)
Lemma no_rejection (promises : list Settled) :
  first_rejection promises = None ->
  forall i p e, nth_error promises i = Some p -> outcome p <> throw e.
Proof.
  induction promises as [| q promises IH]; simpl; intros Hnone [| i] p e; simpl;
    try discriminate.
  - intros [= <-]. destruct (outcome q); [| discriminate].
    destruct (first_rejection promises) as [[t' e'] |];
      [destruct (t' <? settledAt q)%nat |]; discriminate.
  - destruct (outcome q).
    + destruct (first_rejection promises) as [[t' e'] |];
        [destruct (t' <? settledAt q)%nat |]; discriminate.
    + apply IH. exact Hnone.
Qed.

Lemma parse_throws_ZodError (schema : Zod.ZodType) (document : Json) (e : Thrown) :
  Zod.parse schema document = throw e -> exists issues, e = ZodError issues.
Proof.
  unfold Zod.parse. destruct (Zod.check schema [] (Some document)) as [[| issue issues] value].
  - discriminate.
  - intros [= <-]. eauto.
Qed.

(** ** How a week given as a string is told from a bare week number *)

(** The test on the upper-cased string looks at its first character only. *)
Lemma toUpperCase_startsWith_W_head (s : string) :
  toUpperCase_startsWith_W s =
  match s with
  | String c rest =>
      Ascii.eqb c "W" || Ascii.eqb c "w"
      || (Ascii.eqb c "225" && startsWith rest (String "186" (String "152" "")))
  | EmptyString => false
  end.
Proof.
  unfold toUpperCase_startsWith_W, w_with_ring_above.
  destruct s as [| c rest]; [reflexivity |].
  cbn [startsWith]. now rewrite !andb_true_r.
Qed.

Section Client.

Variables tz now : Z.
Variable parseISO : string -> Date.
Variable requestService : IRequestService.

(** Every implemented operation is [#request] on the paths of its plan. *)
Lemma invoke_plan (c : Call) (options : MakeRequestPathOptions) :
  plan tz now parseISO c = Some options ->
  invoke tz now parseISO requestService c =
  request requestService (makeRequestPaths tz options) (requestType options).
Proof.
  destruct c; simpl; try discriminate; intros [= <-]; reflexivity.
Qed.

(** [#request], by cases on what [Promise.all] and the validation give. *)
Lemma request_cases (paths : list string) (type : RequestType) :
  let promises := map_indexed (fun i p => requestService i (path_only p)) O paths in
  match first_rejection promises with
  | Some (_, e) => request requestService paths type = throw (unable_to_get_stats e)
  | None =>
      exists responses,
        map_throwing outcome promises = ret responses
        /\ request requestService paths type =
           match map_throwing (parseObjectWithSchema (schema_of type)) responses with
           | inl e => throw (unable_to_get_stats e)
           | inr parsed => ret parsed
           end
  end.
Proof.
  intros promises. unfold request, Promise_all. fold promises.
  destruct (first_rejection promises) as [[t e] |] eqn:Hfirst; [reflexivity |].
  destruct (map_throwing outcome promises) as [e | responses] eqn:Hvalues.
  - exfalso. destruct (map_throwing_throws _ _ _ Hvalues) as (i & p & Hnth & Hp).
    exact (no_rejection promises Hfirst i p e Hnth Hp).
  - exists responses. split; [reflexivity |]. simpl.
    destruct (map_throwing _ responses); reflexivity.
Qed.

Lemma parseObjectWithSchema_throws (schema : Zod.ZodType) (document : Json) (e : Thrown) :
  parseObjectWithSchema schema document = throw e ->
  exists issues,
    Zod.parse schema document = throw (ZodError issues)
    /\ e = ValidationError "Object shape is not valid." issues (Some (ZodError issues)).
Proof.
  unfold parseObjectWithSchema, try_catch.
  destruct (Zod.parse schema document) as [z | v] eqn:Hparse; [| discriminate].
  destruct (parse_throws_ZodError _ _ _ Hparse) as [issues ->].
  intros [= <-]. eauto.
Qed.

Lemma parseObjectWithSchema_returns (schema : Zod.ZodType) (document parsed : Json) :
  parseObjectWithSchema schema document = ret parsed <->
  Zod.parse schema document = ret parsed.
Proof.
  unfold parseObjectWithSchema, try_catch.
  destruct (Zod.parse schema document); split; intros H; try discriminate; exact H.
Qed.

(** C1: whenever a request dispatched by an operation is rejected, whatever
    the reason (bad status, retries exhausted, body that is not JSON), or a
    response fails the validation of its schema, the operation fails with a
    single error whose message is exactly "Unable to get downloads stats
    from the npm API" and whose cause is the underlying error: the rejection
    of one of the requests, or the validation error of one of the responses. *)
Theorem every_failure_is_wrapped (c : Call) (options : MakeRequestPathOptions) :
  plan tz now parseISO c = Some options ->
  let promises := dispatched tz requestService options in
  let schema := schema_of (requestType options) in
  ((exists i p e, nth_error promises i = Some p /\ outcome p = throw e)
   \/ (exists i p document e,
          nth_error promises i = Some p /\ outcome p = ret document
          /\ Zod.parse schema document = throw e)) ->
  exists cause,
    invoke tz now parseISO requestService c =
      throw (JsError "Unable to get downloads stats from the npm API" (Some cause))
    /\ ((exists i p, nth_error promises i = Some p /\ outcome p = throw cause)
        \/ (exists i p document issues,
               nth_error promises i = Some p /\ outcome p = ret document
               /\ Zod.parse schema document = throw (ZodError issues)
               /\ cause = ValidationError "Object shape is not valid." issues
                            (Some (ZodError issues)))).
Proof.
  intros Hplan promises schema Hfailure.
  rewrite (invoke_plan c options Hplan).
  pose proof (request_cases (makeRequestPaths tz options) (requestType options)) as Hcases.
  cbv zeta in Hcases. fold (dispatched tz requestService options) in Hcases.
  fold promises in Hcases.
  destruct (first_rejection promises) as [[t e] |] eqn:Hfirst.
  - exists e. split; [exact Hcases |]. left.
    exact (first_rejection_is_one promises t e Hfirst).
  - destruct Hcases as (responses & Hvalues & ->).
    destruct (map_throwing_values _ _ _ Hvalues) as [Hlen Hnth].
    destruct Hfailure as [(i & p & e & Hp & Hrejected) | (i & p & document & e & Hp & Hresolved & Hparse)].
    { exfalso. exact (no_rejection promises Hfirst i p e Hp Hrejected). }
    destruct (Hnth i p Hp) as (document' & Hdoc & Hresponse).
    assert (document' = document) by (unfold ret in *; congruence). subst document'.
    assert (Hthrows : exists e', parseObjectWithSchema schema document = throw e').
    { unfold parseObjectWithSchema. rewrite Hparse. simpl. eauto. }
    destruct Hthrows as [e' Hthrows].
    destruct (map_throwing_fails _ _ _ _ _ Hresponse Hthrows) as [cause Hcause].
    fold schema. rewrite Hcause. exists cause. split; [reflexivity |]. right.
    destruct (map_throwing_throws _ _ _ Hcause) as (j & response & Hj & Hinvalid).
    destruct (parseObjectWithSchema_throws _ _ _ Hinvalid) as (issues & Hzod & ->).
    assert (Hpromise : exists q, nth_error promises j = Some q /\ outcome q = ret response).
    { assert (Hlt : (j < length promises)%nat).
      { rewrite <- Hlen. apply nth_error_Some. congruence. }
      destruct (nth_error promises j) as [q |] eqn:Hq;
        [| apply nth_error_None in Hq; lia].
      destruct (Hnth j q Hq) as (r & Hr & Hr').
      exists q. split; [reflexivity |]. unfold ret in *. congruence. }
    destruct Hpromise as (q & Hq & Hqr).
    exists j, q, response, issues. auto.
Qed.

(** C10: a successful operation on the packages [p1, ..., pn] returns
    exactly [n] records, and the record at position [i] is the validated
    response of the request made for the path built for the package at
    position [i]: the results follow the order of the packages. *)
Theorem results_follow_the_packages (c : Call) (options : MakeRequestPathOptions)
  (results : list Json) :
  plan tz now parseISO c = Some options ->
  invoke tz now parseISO requestService c = ret results ->
  length results = length (packages options)
  /\ forall i packageName,
       nth_error (packages options) i = Some packageName ->
       exists path document parsed,
         path_for tz options packageName = [path]
         /\ outcome (requestService i (path_only path)) = ret document
         /\ Zod.parse (schema_of (requestType options)) document = ret parsed
         /\ nth_error results i = Some parsed.
Proof.
  intros Hplan Hinvoke.
  rewrite (invoke_plan c options Hplan) in Hinvoke.
  pose proof (request_cases (makeRequestPaths tz options) (requestType options)) as Hcases.
  cbv zeta in Hcases.
  destruct (first_rejection _) as [[t e] |] eqn:Hfirst.
  { rewrite Hcases in Hinvoke. discriminate. }
  destruct Hcases as (responses & Hvalues & Hrequest).
  rewrite Hrequest in Hinvoke.
  destruct (map_throwing (parseObjectWithSchema _) responses) as [e | parsed] eqn:Hparsed;
    [discriminate |].
  injection Hinvoke as <-.
  destruct (map_throwing_values _ _ _ Hvalues) as [Hlen Hnth].
  destruct (map_throwing_values _ _ _ Hparsed) as [Hlen' Hnth'].
  split.
  { rewrite Hlen', Hlen, length_map_indexed. unfold makeRequestPaths.
    now rewrite length_map. }
  intros i packageName Hpackage.
  set (path := ("/" ++ RequestType_string (requestType options) ++ "/"
                  ++ match period options with
                     | WithKeyword keyword => RequestKeyword_string keyword
                     | WithSingleDate date => date_fragment tz date
                     | WithDateRange startDate endDate =>
                         date_fragment tz startDate ++ ":" ++ date_fragment tz endDate
                     end ++ "/" ++ packageName)%string).
  assert (Hpath : nth_error (makeRequestPaths tz options) i = Some path).
  { unfold makeRequestPaths. rewrite nth_error_map, Hpackage. reflexivity. }
  assert (Hpromise : nth_error
                       (map_indexed (fun i p => requestService i (path_only p)) O
                          (makeRequestPaths tz options)) i
                     = Some (requestService i (path_only path))).
  { rewrite nth_error_map_indexed, Hpath. reflexivity. }
  destruct (Hnth _ _ Hpromise) as (document & Hdocument & Hresponse).
  destruct (Hnth' _ _ Hresponse) as (record & Hrecord & Hresult).
  exists path, document, record. repeat split; try assumption.
  now apply parseObjectWithSchema_returns.
Qed.

(** A week is resolved as the week of the date it is read as. *)
Lemma week_of_week_date (week : StringOrDate) (startOfWeek : option StartOfWeek) :
  getStartAndEndDatesForWeek tz now parseISO week startOfWeek =
  (DateFns.startOfWeek tz (week_date tz now parseISO week) (weekStartsOn startOfWeek),
   DateFns.endOfWeek tz (week_date tz now parseISO week) (weekStartsOn startOfWeek)).
Proof.
  unfold getStartAndEndDatesForWeek, week_date, handed_to_library.
  destruct week as [s | d]; [| reflexivity].
  rewrite toUpperCase_startsWith_W_head.
  destruct s as [| c rest]; [reflexivity |].
  destruct (Ascii.eqb c "W" || Ascii.eqb c "w"
            || (Ascii.eqb c "225" && startsWith rest (String "186" (String "152" ""))));
    reflexivity.
Qed.



End Client.
End ClientFacts.

(** * The properties at concrete inputs *)

Module Examples.
Import JS Terms NpmDownloadCountClient ClientFacts.

Lemma every_failure_is_wrapped_witness :
  exists cause,
    invoke 0 a_day_of_2023 parseISO_of_the_tests refusing_service
      (CallGetLastDay ["@aws-lambda-powertools/logger"; "@aws-lambda-powertools/metrics"])
    = throw (JsError "Unable to get downloads stats from the npm API" (Some cause))
    /\ ((exists i p,
           nth_error
             (dispatched 0 refusing_service
                {| packages :=
                     ["@aws-lambda-powertools/logger"; "@aws-lambda-powertools/metrics"];
                   period := WithKeyword last_day;
                   requestType := point |}) i = Some p
           /\ outcome p = throw cause)
        \/ (exists i p document issues,
               nth_error
                 (dispatched 0 refusing_service
                    {| packages :=
                         ["@aws-lambda-powertools/logger"; "@aws-lambda-powertools/metrics"];
                       period := WithKeyword last_day;
                       requestType := point |}) i = Some p
               /\ outcome p = ret document
               /\ Zod.parse (schema_of point) document = throw (ZodError issues)
               /\ cause = ValidationError "Object shape is not valid." issues
                            (Some (ZodError issues)))).
Proof.
  apply (every_failure_is_wrapped 0 a_day_of_2023 parseISO_of_the_tests refusing_service
           (CallGetLastDay
              ["@aws-lambda-powertools/logger"; "@aws-lambda-powertools/metrics"])
           {| packages :=
                ["@aws-lambda-powertools/logger"; "@aws-lambda-powertools/metrics"];
              period := WithKeyword last_day;
              requestType := point |}).
  - reflexivity.
  - left. exists 1%nat. eexists. exists (bad_status 401). split; reflexivity.
Defined.

Lemma results_follow_the_packages_witness :
  length [ parsed_point_document "/point/last-day/a" 0;
           parsed_point_document "/point/last-day/b" 1 ]
  = length ["a"; "b"]
  /\ forall i packageName,
       nth_error ["a"; "b"] i = Some packageName ->
       exists path document parsed,
         path_for 0
           {| packages := ["a"; "b"];
              period := WithKeyword last_day;
              requestType := point |} packageName = [path]
         /\ outcome (echo_service i (path_only path)) = ret document
         /\ Zod.parse (schema_of point) document = ret parsed
         /\ nth_error
              [ parsed_point_document "/point/last-day/a" 0;
                parsed_point_document "/point/last-day/b" 1 ] i = Some parsed.
Proof.
  apply (results_follow_the_packages 0 a_day_of_2023 parseISO_of_the_tests echo_service
           (CallGetLastDay ["a"; "b"])
           {| packages := ["a"; "b"];
              period := WithKeyword last_day;
              requestType := point |}).
  - reflexivity.
  - reflexivity.
Defined.





(** The four kinds of failure, from the remote to the caller of [getDay]. *)

Example getDay_wraps_a_refused_request :
  getDay 0 (sole_request (always 401) (RequestService.constructor None))
    ["@aws-lambda-powertools/logger"] (local_date 0 2023 5 15 0)
  = throw (unable_to_get_stats (bad_status 401)).
Proof. vm_compute. reflexivity. Qed.

Example getDay_wraps_exhausted_retries :
  getDay 0 (sole_request (always 500) (RequestService.constructor (retry_config 2 0)))
    ["@aws-lambda-powertools/logger"] (local_date 0 2023 5 15 0)
  = throw (unable_to_get_stats max_retries_exceeded).
Proof. vm_compute. reflexivity. Qed.

Example getDay_wraps_a_body_that_is_not_json :
  getDay 0 (sole_request (always 200) (RequestService.constructor None))
    ["@aws-lambda-powertools/logger"] (local_date 0 2023 5 15 0)
  = throw (unable_to_get_stats
             (JsError "API endpoint returned a non JSON response"
                (Some (HostError "SyntaxError" "Unexpected end of JSON input")))).
Proof. vm_compute. reflexivity. Qed.

Example getDay_wraps_a_response_without_package :
  getDay 0
    (sole_request (replying 200 (ret nameless_document))
       (RequestService.constructor None))
    ["@aws-lambda-powertools/logger"] (local_date 0 2023 5 15 0)
  = throw (unable_to_get_stats
             (ValidationError "Object shape is not valid." [package_required]
                (Some (ZodError [package_required])))).
Proof. vm_compute. reflexivity. Qed.

(** The paths of the unit tests for a week, Monday first and Sunday first. *)
Example week_paths_of_the_tests :
  (let '(startDate, endDate) :=
     getStartAndEndDatesForWeek 0 a_day_of_2023 parseISO_of_the_tests
       (Str "2023W20") (Some monday) in
   makeRequestPaths 0
     {| packages := ["@aws-lambda-powertools/logger"];
        requestType := range;
        period := WithDateRange startDate endDate |})
  = ["/range/2023-5-15:2023-5-21/@aws-lambda-powertools/logger"]
  /\ (let '(startDate, endDate) :=
        getStartAndEndDatesForWeek 0 a_day_of_2023 parseISO_of_the_tests
          (Str "W20") (Some sunday) in
      makeRequestPaths 0
        {| packages := ["@aws-lambda-powertools/logger"];
           requestType := range;
           period := WithDateRange startDate endDate |})
     = ["/range/2023-5-14:2023-5-20/@aws-lambda-powertools/logger"].
Proof. vm_compute. split; reflexivity. Qed.

End Examples.

(** * Further properties of the request service *)

Module RequestServiceMore.
Import JS RequestService Terms MoreTerms RequestServiceFacts.

Lemma waited_out_then (attempt : Event) (wait : Z) (n : nat) :
  (waited_out attempt wait n ++ [attempt])%list = attempt :: retries attempt wait n.
Proof.
  induction n as [| n IH]; simpl; [reflexivity |]. now rewrite IH.
Qed.

Lemma attempts_waited_out url how payload wait n :
  attempts (waited_out (Fetched url how payload) wait n) = n.
Proof.
  induction n as [| n IH]; [reflexivity |].
  unfold attempts in *. simpl. now rewrite IH.
Qed.

Lemma attempts_after_wait url how payload wait (world : World) :
  attempts ((world ++ [Fetched url how payload]) ++ [Slept wait])%list
  = S (attempts world).
Proof. rewrite !attempts_app. unfold attempts. simpl. lia. Qed.

(** Retrying is transparent: after [k] retriable replies the call goes on
    as a call on the instance with [k] more retries counted. *)
Lemma request_after_retries server options query :
  query_of options = inr query ->
  forall (k : nat) (self : RequestService) (world : World),
    count (requestRetry self) + Z.of_nat k <= maxRetries (requestRetry self) ->
    (forall j, (j < k)%nat ->
               retriable_reply
                 (server (attempts world + j)%nat
                    (basePath self ++ path_of options ++ query))) ->
    request server self options world =
    request server (with_count self (count (requestRetry self) + Z.of_nat k)) options
      (world ++ waited_out (attempt_of self options query)
                  (delay (requestRetry self)) k)%list.
Proof.
  intros Hquery k.
  induction k as [| k IH]; intros self world Hbudget Hserver.
  - simpl. rewrite app_nil_r, Z.add_0_r.
    destruct self as [[c m d] b]. reflexivity.
  - rewrite request_eq, Hquery. unfold fetch.
    destruct (Hserver O ltac:(lia)) as (response & Hreply & Hstatus).
    rewrite Nat.add_0_r in Hreply. rewrite Hreply.
    destruct (retriable_status response Hstatus) as [-> ->].
    destruct (Z_lt_dec _ _) as [_ | Hge]; [| lia].
    rewrite IH.
    + simpl. rewrite <- !app_assoc. simpl.
      replace (count (requestRetry self) + 1 + Z.of_nat k)
        with (count (requestRetry self) + Z.pos (Pos.of_succ_nat k)) by lia.
      reflexivity.
    + simpl. lia.
    + intros j Hj. simpl. rewrite attempts_after_wait.
      replace (S (attempts world) + j)%nat with (attempts world + S j)%nat by lia.
      apply Hserver. lia.
Qed.

Lemma attempts_after_retries (world : World) attempt wait k :
  is_fetch attempt = true ->
  attempts (world ++ waited_out attempt wait k)%list = (attempts world + k)%nat.
Proof.
  intros Hf. rewrite attempts_app. f_equal.
  induction k as [| k IH]; [reflexivity |].
  unfold attempts in *. simpl. rewrite Hf. simpl. now rewrite IH.
Qed.

Lemma after_retries_trace (world : World) attempt wait k :
  ((world ++ waited_out attempt wait k) ++ [attempt])%list
  = (world ++ attempt :: retries attempt wait k)%list.
Proof. now rewrite <- app_assoc, waited_out_then. Qed.

Lemma ok_of_status (response : Response) :
  200 <= status response <= 299 -> ok response = true.
Proof. intros H. unfold ok. apply andb_true_intro. split; apply Z.leb_le; lia. Qed.

Section AfterRetries.

Variable server : nat -> string -> FetchResult.
Variables (self : RequestService) (options : option RequestOptions) (world : World).
Variables (query : string) (k : nat).

Let url : string := basePath self ++ path_of options ++ query.
Let attempt : Event := attempt_of self options query.

Hypothesis Hquery : query_of options = ret query.
Hypothesis Hbudget :
  count (requestRetry self) + Z.of_nat k <= maxRetries (requestRetry self).
Hypothesis Hretried :
  forall j, (j < k)%nat -> retriable_reply (server (attempts world + j)%nat url).

(** The call after its [k] retries, one unfolding further. *)
Lemma request_last_attempt :
  request server self options world =
  match server (attempts world + k)%nat url with
  | FetchRejected err =>
      (throw err, with_count self (count (requestRetry self) + Z.of_nat k),
       (world ++ attempt :: retries attempt (delay (requestRetry self)) k)%list)
  | Responded response =>
      if ok response then
        match json response with
        | inr document =>
            (ret document, with_count self 0,
             (world ++ attempt :: retries attempt (delay (requestRetry self)) k)%list)
        | inl err =>
            (throw (not_json err), with_count self 0,
             (world ++ attempt :: retries attempt (delay (requestRetry self)) k)%list)
        end
      else if isRetriableCode (status response) then
        request server self options world
      else
        (throw (bad_status (status response)), with_count self 0,
         (world ++ attempt :: retries attempt (delay (requestRetry self)) k)%list)
  end.
Proof.
  assert (Hcall := request_after_retries server options query Hquery k self world
                     Hbudget Hretried).
  pose proof Hquery as Hq. unfold ret in Hq.
  destruct (server (attempts world + k)%nat url) as [err | response] eqn:Hlast.
  - rewrite Hcall, request_eq, Hq. unfold fetch.
    rewrite attempts_after_retries by reflexivity.
    simpl basePath. fold url. rewrite Hlast.
    unfold attempt, attempt_of. fold url. now rewrite after_retries_trace.
  - destruct (ok response) eqn:Hok.
    + rewrite Hcall, request_eq, Hq. unfold fetch.
      rewrite attempts_after_retries by reflexivity.
      simpl basePath. fold url. rewrite Hlast, Hok.
      unfold attempt, attempt_of. fold url.
      destruct (json response); now rewrite after_retries_trace.
    + destruct (isRetriableCode (status response)) eqn:Hcode; [reflexivity |].
      rewrite Hcall, request_eq, Hq. unfold fetch.
      rewrite attempts_after_retries by reflexivity.
      simpl basePath. fold url. rewrite Hlast, Hok, Hcode.
      unfold attempt, attempt_of. fold url. now rewrite after_retries_trace.
Qed.

(** X1: when the remote answers retriable statuses [k] times, within the
    budget, and then a 2xx response with a JSON body, the call resolves to
    that document after [k + 1] fetches, each retry preceded by the delay,
    and leaves the retry counter at zero. *)
Theorem resolves_after_retries (response : Response) (document : Json) :
  server (attempts world + k)%nat url = Responded response ->
  200 <= status response <= 299 ->
  json response = ret document ->
  request server self options world =
  (ret document, with_count self 0,
   (world ++ attempt :: retries attempt (delay (requestRetry self)) k)%list).
Proof.
  intros Hlast Hstatus Hjson.
  rewrite request_last_attempt, Hlast, (ok_of_status response Hstatus), Hjson.
  reflexivity.
Qed.

(** X2: a 2xx response whose body is not JSON is final even after retries:
    the call fails with "API endpoint returned a non JSON response", the
    parser's error as its cause, without a further attempt, and the retry
    counter is reset to zero. *)
Theorem not_json_is_final (response : Response) (err : Thrown) :
  server (attempts world + k)%nat url = Responded response ->
  200 <= status response <= 299 ->
  json response = throw err ->
  request server self options world =
  (throw (JsError "API endpoint returned a non JSON response" (Some err)),
   with_count self 0,
   (world ++ attempt :: retries attempt (delay (requestRetry self)) k)%list).
Proof.
  intros Hlast Hstatus Hjson.
  rewrite request_last_attempt, Hlast, (ok_of_status response Hstatus), Hjson.
  reflexivity.
Qed.

(** X3: a status that is neither 2xx nor retriable, met after [k] retries,
    ends the call with "API endpoint returned status code <code>" for that
    last status, and the retry counter is reset to zero. *)
Theorem other_status_after_retries (response : Response) :
  server (attempts world + k)%nat url = Responded response ->
  ~ 200 <= status response <= 299 ->
  ~ In (status response) [500; 502; 503; 504] ->
  request server self options world =
  (throw (JsError
            ("API endpoint returned status code "
               ++ number_to_string (status response)) None),
   with_count self 0,
   (world ++ attempt :: retries attempt (delay (requestRetry self)) k)%list).
Proof.
  intros Hlast Hok Hcode.
  destruct (other_status response Hok Hcode) as [Hok' Hcode'].
  rewrite request_last_attempt, Hlast, Hok', Hcode'. reflexivity.
Qed.

(** X4: when [fetch] itself is rejected (the remote cannot be reached), the
    call is rejected with that very error, not wrapped, and the retry
    counter keeps the [k] retries made so far: it is not reset. *)
Theorem fetch_rejection_is_passed_on (err : Thrown) :
  server (attempts world + k)%nat url = FetchRejected err ->
  request server self options world =
  (throw err, with_count self (count (requestRetry self) + Z.of_nat k),
   (world ++ attempt :: retries attempt (delay (requestRetry self)) k)%list).
Proof.
  intros Hlast. now rewrite request_last_attempt, Hlast.
Qed.

End AfterRetries.

Lemma request_trace_within_budget server options query :
  query_of options = inr query ->
  forall (b : nat) (self : RequestService) (world : World),
    budget self = b ->
    exists n,
      (n <= b)%nat
      /\ snd (request server self options world) =
         (world ++ attempt_of self options query
            :: retries (attempt_of self options query) (delay (requestRetry self)) n)%list.
Proof.
  intros Hquery b.
  induction b as [| b IH]; intros self world Hb;
    rewrite request_eq, Hquery; unfold fetch;
    (destruct (server (attempts world) _) as [err | response];
     [exists O; (split; [lia | reflexivity]) |]);
    (destruct (ok response);
     [destruct (json response); exists O; (split; [lia | reflexivity]) |]);
    (destruct (isRetriableCode (status response));
     [| exists O; (split; [lia | reflexivity])]);
    (destruct (Z_lt_dec _ _) as [Hlt | Hge];
     [| destruct (Z_ge_dec _ _); exists O; (split; [lia | reflexivity])]).
  - unfold budget in Hb. lia.
  - destruct (IH (with_count self (count (requestRetry self) + 1))
                (((world ++ [Fetched (basePath self ++ path_of options ++ query)
                               (method_of options) (body_of options)])
                    ++ [Slept (delay (requestRetry self))])%list))
      as (n & Hn & Htrace).
    { unfold budget in *. simpl. lia. }
    exists (S n). split; [lia |].
    rewrite Htrace. unfold attempt_of. simpl. now rewrite <- !app_assoc.
Qed.

(** X5: whatever the remote answers, one call makes at least one fetch and at
    most one more than the retries left to it, always for the same URL,
    method and body, and waits the configured delay before each fetch after
    the first: its trace is one attempt followed by at most [budget] retries. *)
Theorem request_stays_within_budget
  (server : nat -> string -> FetchResult) (self : RequestService)
  (options : option RequestOptions) (world : World) (query : string) :
  query_of options = ret query ->
  exists n,
    (n <= budget self)%nat
    /\ snd (request server self options world) =
       (world ++ attempt_of self options query
          :: retries (attempt_of self options query) (delay (requestRetry self)) n)%list
    /\ attempts (snd (request server self options world)) = (attempts world + S n)%nat.
Proof.
  intros Hquery.
  destruct (request_trace_within_budget server options query Hquery
              (budget self) self world eq_refl) as (n & Hn & Htrace).
  exists n. split; [exact Hn |]. split; [exact Htrace |].
  rewrite Htrace, attempts_app. unfold attempt_of.
  now rewrite attempts_cons_fetch, attempts_retries.
Qed.

(** X6: a call never changes the settings of the instance (retry bound,
    delay, base path); it only moves the retry counter, which it leaves at
    zero or somewhere between its old value and the retry bound. *)
Theorem request_keeps_the_settings
  (server : nat -> string -> FetchResult) (self : RequestService)
  (options : option RequestOptions) (world : World) :
  let self' := snd (fst (request server self options world)) in
  maxRetries (requestRetry self') = maxRetries (requestRetry self)
  /\ delay (requestRetry self') = delay (requestRetry self)
  /\ basePath self' = basePath self
  /\ (count (requestRetry self') = 0
      \/ count (requestRetry self) <= count (requestRetry self')
           <= Z.max (count (requestRetry self)) (maxRetries (requestRetry self))).
Proof.
  funelim (request server self options world); simpl in *;
    try (repeat split; try reflexivity; (left; reflexivity) || (right; lia)).
  destruct H as (Hmax & Hdelay & Hbase & Hcount).
  repeat split; try assumption.
  destruct Hcount as [Hzero | Hrange]; [now left | right; lia].
Qed.

(** X7: an instance whose counter has reached the retry bound, as with a
    bound of zero or below, does not retry: on a retriable status it fails
    after that single fetch with the max-retries-exceeded error, not with the
    status code, and its counter is left as it was. *)
Theorem no_retry_without_budget
  (server : nat -> string -> FetchResult) (self : RequestService)
  (options : option RequestOptions) (world : World) (query : string) :
  query_of options = ret query ->
  maxRetries (requestRetry self) <= count (requestRetry self) ->
  retriable_reply (server (attempts world) (basePath self ++ path_of options ++ query)) ->
  request server self options world =
  (throw (JsError
            "API endpoint failed to provide a valid response, max retries exceeded"
            None),
   self, (world ++ [attempt_of self options query])%list).
Proof.
  intros Hquery Hbound (response & Hreply & Hstatus).
  unfold ret in Hquery.
  rewrite request_eq, Hquery. unfold fetch. rewrite Hreply.
  destruct (retriable_status response Hstatus) as [-> ->].
  destruct (Z_lt_dec _ _) as [Hlt | _]; [lia |].
  destruct (Z_ge_dec _ _) as [_ | Hge]; [reflexivity | lia].
Qed.

Lemma invalid_date_throws (params : list (string * Value)) (key : string) :
  In (key, VDate InvalidDate) params ->
  forall query, serialize_entries query params = throw invalid_time_value.
Proof.
  induction params as [| [k v] params IH]; intros Hin query; [contradiction |].
  destruct Hin as [[= -> ->] | Hin]; [reflexivity |].
  cbn [serialize_entries].
  assert (Hentry : serialize_entry query (k, v) = throw invalid_time_value
                   \/ exists q, serialize_entry query (k, v) = ret q).
  { destruct v; simpl; eauto. destruct (toISOString_date d); eauto. }
  destruct Hentry as [-> | [q ->]]; [reflexivity |].
  simpl. apply IH. exact Hin.
Qed.

(** X8: a query parameter that holds an invalid [Date] makes the call fail
    with the [RangeError] of [toISOString] before anything is fetched: the
    world and the instance are left untouched, whatever the other parameters. *)
Theorem invalid_date_parameter_stops_the_call
  (server : nat -> string -> FetchResult) (self : RequestService)
  (params : list (string * Value)) (key : string) (world : World) :
  In (key, VDate InvalidDate) params ->
  request server self (with_params params) world =
  (throw (HostError "RangeError" "Invalid time value"), self, world).
Proof.
  intros Hin. rewrite request_eq. unfold query_of, with_params. cbn [queryParams].
  unfold serializeQueryParams. now rewrite (invalid_date_throws params key Hin).
Qed.

End RequestServiceMore.

(** * Further properties of the query serializer *)

Module SerializerMore.
Import JS RequestService Terms MoreTerms SerializerFacts.

Lemma string_forall_app (p : ascii -> bool) (s1 s2 : string) :
  string_forall p (s1 ++ s2) = string_forall p s1 && string_forall p s2.
Proof.
  induction s1 as [| c s1 IH]; simpl; [reflexivity |].
  now rewrite IH, andb_assoc.
Qed.

Lemma urlencoded_app (s1 s2 : string) :
  urlencoded (s1 ++ s2) = urlencoded s1 ++ urlencoded s2.
Proof.
  induction s1 as [| c s1 IH]; simpl; [reflexivity |].
  now rewrite IH, append_assoc.
Qed.

Lemma encodeURI_cons (c : ascii) (s : string) :
  encodeURI (String c s) = encodeURI (String c "") ++ encodeURI s.
Proof.
  simpl. destruct (encodeURI_keeps c); simpl; reflexivity.
Qed.

(** What the two encodings make of one character. *)
Lemma escaped_char (c : ascii) :
  urlencoded (encodeURI (String c "")) = emitted_char c.
Proof. destruct c as [[] [] [] [] [] [] [] []]; reflexivity. Qed.

Lemma urlencoded_safe (s : string) : string_forall query_safe (urlencoded s) = true.
Proof.
  induction s as [| c s IH]; [reflexivity |].
  simpl. rewrite string_forall_app, IH, andb_true_r.
  destruct c as [[] [] [] [] [] [] [] []]; reflexivity.
Qed.

Lemma toString_safe (query : URLSearchParams) :
  string_forall query_safe (toString query) = true.
Proof.
  unfold toString.
  induction query as [| p query IH]; [reflexivity |].
  simpl. destruct (map pair_toString query) as [| x xs] eqn:Hrest.
  - unfold pair_toString. now rewrite !string_forall_app, !urlencoded_safe.
  - unfold pair_toString in *.
    rewrite !string_forall_app, !urlencoded_safe. simpl in *. exact IH.
Qed.

(** X9: the query part that [request] appends to the path is either empty or
    a question mark followed only by letters, digits and the characters
    [* - . _ + % = &]: whatever the keys and values, no space, [#], [/], [?]
    or other raw character reaches the URL through the query parameters. *)
Theorem query_has_only_safe_characters (options : option RequestOptions)
  (query : string) :
  query_of options = ret query ->
  query = ""
  \/ exists rest, query = "?" ++ rest /\ string_forall query_safe rest = true.
Proof.
  unfold query_of. intros Hquery.
  destruct options as [[p m b [params |]] |]; simpl in Hquery;
    try (left; now injection Hquery).
  destruct (serializeQueryParams params) as [err | serialized]; simpl in Hquery;
    [discriminate |].
  injection Hquery as <-. right. eexists. split; [reflexivity |].
  apply toString_safe.
Qed.

Lemma emitted_string_spec (s : string) :
  urlencoded (encodeURI s) = emitted_string s.
Proof.
  induction s as [| c s IH]; [reflexivity |].
  rewrite encodeURI_cons, urlencoded_app, escaped_char, IH. reflexivity.
Qed.

(** X10: a string value reaches the URL character by character: a letter, a
    digit or one of [* - . _] as it is; the other characters that
    [encodeURI] keeps (such as [@ / ? & = + #]) escaped once; every other
    character, the space included, escaped twice, its [%XX] becoming
    [%25XX]. *)
Theorem string_values_are_escaped_twice (key value : string) :
  query_of (with_params [(key, VString value)]) =
  ret ("?" ++ urlencoded key ++ "=" ++ emitted_string value).
Proof.
  unfold query_of, with_params. cbn.
  unfold toString, pair_toString. cbn. now rewrite emitted_string_spec.
Qed.

Lemma serialize_entries_from (params : list (string * Value)) (query : URLSearchParams) :
  serialize_entries query params =
  bind (serialize_entries [] params) (fun emitted => ret (query ++ emitted)%list).
Proof.
  revert query. induction params as [| [k v] params IH]; intros query.
  - simpl. now rewrite app_nil_r.
  - cbn [serialize_entries].
    assert (Hentry : (exists e, forall q, serialize_entry q (k, v) = throw e)
                     \/ exists pairs, forall q, serialize_entry q (k, v) = ret (q ++ pairs)%list).
    { destruct v; simpl;
        try (right; exists []; intros q; now rewrite app_nil_r);
        try (right; eexists [_]; intros q; reflexivity).
      destruct (toISOString_date d);
        [right; eexists [_]; intros q; reflexivity | left; eexists; reflexivity]. }
    destruct Hentry as [[e He] | [pairs Hpairs]].
    + now rewrite !He.
    + rewrite !Hpairs. cbn [bind ret].
      rewrite (IH (query ++ pairs)%list), (IH ([] ++ pairs)%list).
      destruct (serialize_entries [] params) as [e | emitted]; simpl; [reflexivity |].
      now rewrite app_assoc.
Qed.

(** X11: serialization goes entry by entry and keeps the order: the pairs
    emitted for two mappings put end to end are the pairs of the first
    followed by the pairs of the second. *)
Theorem serialization_keeps_the_order (first second : list (string * Value))
  (pairs pairs' : URLSearchParams) :
  serializeQueryParams first = ret pairs ->
  serializeQueryParams second = ret pairs' ->
  serializeQueryParams (first ++ second) = ret (pairs ++ pairs')%list.
Proof.
  unfold serializeQueryParams. intros Hfirst Hsecond.
  rewrite serialize_entries_app, Hfirst. cbn [bind ret].
  rewrite serialize_entries_from, Hsecond. reflexivity.
Qed.

(** X12: a boolean and an object that is neither a [Date] nor a wrapped big
    integer are passed over without an error: their keys never reach the
    URL, wherever they stand in the mapping. *)
Theorem booleans_and_objects_are_dropped :
  (forall before key b after,
      serializeQueryParams (before ++ (key, VBoolean b) :: after) =
      serializeQueryParams (before ++ after))
  /\ (forall before key o after,
         serializeQueryParams (before ++ (key, VObject o) :: after) =
         serializeQueryParams (before ++ after))
  /\ (forall key b, query_of (with_params [(key, VBoolean b)]) = ret "?").
Proof.
  split; [| split].
  - intros before key b after. apply serialize_skips. reflexivity.
  - intros before key o after. apply serialize_skips. reflexivity.
  - reflexivity.
Qed.

Lemma little_digit (q r : N) :
  (r < 10)%N ->
  (Decimal.nb_digits (Unsigned.to_lu (10 * q + r))
   <= if (q =? 0)%N then 1 else S (Decimal.nb_digits (Unsigned.to_lu q)))%nat.
Proof.
  intros Hr.
  assert (Hcases : (r = 0 \/ r = 1 \/ r = 2 \/ r = 3 \/ r = 4 \/ r = 5 \/ r = 6
                    \/ r = 7 \/ r = 8 \/ r = 9)%N) by lia.
  destruct q as [| p].
  - repeat (destruct Hcases as [-> | Hcases]); try subst r; simpl; lia.
  - change (N.pos p =? 0)%N with false. cbv iota.
    repeat (destruct Hcases as [-> | Hcases]); try subst r;
      [ replace (10 * N.pos p + 0)%N with (10 * N.pos p)%N by lia
      | replace (10 * N.pos p + 1)%N with (N.succ (10 * N.pos p)) by lia
      | replace (10 * N.pos p + 2)%N with (N.succ (N.succ (10 * N.pos p))) by lia
      | replace (10 * N.pos p + 3)%N
          with (N.succ (N.succ (N.succ (10 * N.pos p)))) by lia
      | replace (10 * N.pos p + 4)%N
          with (N.succ (N.succ (N.succ (N.succ (10 * N.pos p))))) by lia
      | replace (10 * N.pos p + 5)%N
          with (N.succ (N.succ (N.succ (N.succ (N.succ (10 * N.pos p)))))) by lia
      | replace (10 * N.pos p + 6)%N
          with (N.succ (N.succ (N.succ (N.succ (N.succ (N.succ (10 * N.pos p)))))))
          by lia
      | replace (10 * N.pos p + 7)%N
          with (N.succ (N.succ (N.succ (N.succ (N.succ (N.succ (N.succ
                  (10 * N.pos p)))))))) by lia
      | replace (10 * N.pos p + 8)%N
          with (N.succ (N.succ (N.succ (N.succ (N.succ (N.succ (N.succ (N.succ
                  (10 * N.pos p))))))))) by lia
      | replace (10 * N.pos p + 9)%N
          with (N.succ (N.succ (N.succ (N.succ (N.succ (N.succ (N.succ (N.succ
                  (N.succ (10 * N.pos p)))))))))) by lia ];
      rewrite ?Unsigned.to_lu_succ, Unsigned.to_ldec_tenfold; cbn [Decimal.Little.succ Decimal.nb_digits]; lia.
Qed.

Lemma little_digits (k : nat) :
  forall n : N, Z.of_N n < 10 ^ Z.of_nat k ->
                (Decimal.nb_digits (Unsigned.to_lu n) <= Nat.max 1 k)%nat.
Proof.
  induction k as [| k IH]; intros n Hn.
  - assert (n = 0%N) as -> by (simpl in Hn; lia). simpl. lia.
  - rewrite Nat2Z.inj_succ, Z.pow_succ_r in Hn by lia.
    pose proof (N.div_mod n 10 ltac:(lia)) as Hsplit.
    pose proof (N.mod_lt n 10 ltac:(lia)) as Hmod.
    assert (Hq : Z.of_N (n / 10) < 10 ^ Z.of_nat k)
      by (rewrite N2Z.inj_div; apply Z.div_lt_upper_bound; lia).
    rewrite Hsplit.
    pose proof (little_digit (n / 10) (n mod 10) Hmod) as Hdigit.
    pose proof (IH (n / 10)%N Hq) as Hrest.
    destruct (N.eqb_spec (n / 10) 0) as [_ | Hpos]; [lia |].
    destruct k as [| k]; [simpl in Hq; lia | lia].
Qed.

Lemma string_of_uint_length (d : Decimal.uint) :
  String.length (NilEmpty.string_of_uint d) = Decimal.nb_digits d.
Proof. induction d; simpl; congruence. Qed.

Lemma digits_of_length (k : nat) (n : Z) :
  0 <= n < 10 ^ Z.of_nat k ->
  (String.length (digits_of n) <= Nat.max 1 k)%nat.
Proof.
  intros [Hlo Hhi]. unfold digits_of.
  destruct n as [| p | p]; [apply Nat.le_max_l | | lia].
  cbn [Z.to_int NilZero.string_of_int]. unfold NilZero.string_of_uint.
  pose proof (Unsigned.to_uint_nonnil p) as Hnonnil.
  destruct (Pos.to_uint p) eqn:Hdigits; [congruence | ..];
    rewrite <- Hdigits, string_of_uint_length; unfold Pos.to_uint;
    rewrite DecimalFacts.nb_digits_rev;
    pose proof (little_digits k (N.pos p) Hhi) as Hle;
    cbn [Unsigned.to_lu] in Hle; exact Hle.
Qed.

Lemma length_append (s1 s2 : string) :
  String.length (s1 ++ s2) = (String.length s1 + String.length s2)%nat.
Proof. induction s1 as [| c s1 IH]; simpl; [reflexivity | now rewrite IH]. Qed.

Lemma length_repeat_char (c : ascii) (n : nat) : String.length (repeat_char c n) = n.
Proof. induction n as [| n IH]; simpl; [reflexivity | now rewrite IH]. Qed.

Lemma four_digits_are_exact (n : Z) : 0 <= n <= 9999 -> Z.abs n <= 2 ^ 53.
Proof. change (2 ^ 53) with 9007199254740992. lia. Qed.

Lemma padded_length (width : nat) (n : Z) :
  (1 <= width)%nat -> 0 <= n < 10 ^ Z.of_nat width -> n <= 9999 ->
  String.length (pad_start_0 width n) = width.
Proof.
  intros Hwidth Hn Hsmall. unfold pad_start_0.
  rewrite number_to_string_exact by (apply four_digits_are_exact; lia).
  pose proof (digits_of_length width n Hn) as Hle.
  rewrite length_append, length_repeat_char. lia.
Qed.

Lemma padded_year_length (y : Z) :
  0 <= y <= 9999 -> String.length (pad_start_0 4 y) = 4%nat.
Proof.
  intros Hy. apply padded_length; [lia | | lia].
  change (10 ^ Z.of_nat 4) with 10000. lia.
Qed.

Lemma padded_day_length (d : Z) :
  0 <= d <= 99 -> String.length (pad_start_0 2 d) = 2%nat.
Proof.
  intros Hd. apply padded_length; [lia | | lia].
  change (10 ^ Z.of_nat 2) with 100. lia.
Qed.

Lemma repeat_char_digits (n : nat) :
  string_forall digit_or_minus (repeat_char "0" n) = true.
Proof. induction n; simpl; auto. Qed.

Lemma urlencoded_padded (width : nat) (n : Z) :
  0 <= n <= 9999 -> urlencoded (pad_start_0 width n) = pad_start_0 width n.
Proof.
  intros Hn. apply urlencoded_kept.
  apply (string_forall_impl digit_or_minus); [apply digit_or_minus_kept |].
  unfold pad_start_0.
  rewrite string_forall_app, repeat_char_digits, number_to_string_chars;
    [reflexivity | now apply four_digits_are_exact].
Qed.

(** X13: a valid [Date] value is emitted as its UTC calendar date in the
    form [YYYY-MM-DD], the month and the day zero-padded to two characters
    and the year (0 to 9999) to four, unlike the unpadded dates of the
    request path. *)
Theorem date_parameters_are_zero_padded (key : string) (y m d ms : Z) :
  valid_date y m d -> 0 <= y <= 9999 -> 0 <= ms < msPerDay ->
  query_of (with_params [(key, VDate (DateAt (days_from_civil y m d * msPerDay + ms)))])
  = ret ("?" ++ urlencoded key ++ "="
           ++ pad_start_0 4 y ++ "-" ++ pad_start_0 2 m ++ "-" ++ pad_start_0 2 d)
  /\ String.length (pad_start_0 4 y) = 4%nat
  /\ String.length (pad_start_0 2 m) = 2%nat
  /\ String.length (pad_start_0 2 d) = 2%nat.
Proof.
  intros Hdate Hy Hms.
  pose proof (CalendarFacts.days_in_month_le y m) as Hle.
  split.
  - unfold query_of, with_params. cbn [queryParams].
    unfold serializeQueryParams. cbn [serialize_entries serialize_entry].
    unfold toISOString_date.
    replace ((days_from_civil y m d * msPerDay + ms) / msPerDay)
      with (days_from_civil y m d).
    2:{ unfold msPerDay in *.
        rewrite Z.add_comm, Z.div_add, Z.div_small by lia. lia. }
    rewrite (CalendarFacts.civil_from_days_from_civil y m d Hdate).
    cbn [bind ret]. unfold toString, pair_toString, append. cbn [map fst snd app String.concat].
    unfold iso_date_string, iso_year.
    replace ((0 <=? y) && (y <=? 9999)) with true
      by (symmetry; apply andb_true_intro; split; apply Z.leb_le; lia).
    destruct Hdate as [Hm Hd].
    rewrite !urlencoded_app, !urlencoded_padded by lia. reflexivity.
  - destruct Hdate as [Hm Hd].
    repeat split; [apply padded_year_length | apply padded_day_length
                   | apply padded_day_length]; lia.
Qed.

End SerializerMore.

(** * Properties of the response schemas *)

Module SchemaFacts.
Import JS Terms MoreTerms.

Lemma parse_returns (schema : Zod.ZodType) (document parsed : Json) :
  Zod.parse schema document = ret parsed <->
  fst (Zod.check schema [] (Some document)) = []
  /\ parsed = snd (Zod.check schema [] (Some document)).
Proof.
  unfold Zod.parse.
  destruct (Zod.check schema [] (Some document)) as [[| issue issues] value]; simpl.
  - split; [intros [= <-]; auto | intros [_ ->]; reflexivity].
  - split; [discriminate | intros [H _]; discriminate].
Qed.

Lemma check_string (at_path : list PathSegment) (input : option Json) :
  fst (Zod.check Zod.ZString at_path input) = [] ->
  exists s, input = Some (JString s).
Proof. destruct input as [[] |]; simpl; try discriminate. eauto. Qed.

Lemma check_number (at_path : list PathSegment) (input : option Json) :
  fst (Zod.check Zod.ZNumber at_path input) = [] ->
  exists n, input = Some (JNumber n).
Proof. destruct input as [[] |]; simpl; try discriminate. eauto. Qed.

Lemma check_object_only (shape : list (string * Zod.ZodType))
  (at_path : list PathSegment) (input : option Json) :
  fst (Zod.check (Zod.ZObject shape) at_path input) = [] ->
  exists fields, input = Some (JObject fields).
Proof. destruct input as [[] |]; simpl; try discriminate. eauto. Qed.

Lemma check_array (element : Zod.ZodType) (at_path : list PathSegment)
  (items : list Json) :
  Zod.check (Zod.ZArray element) at_path (Some (JArray items)) =
  let '(issues, values) := check_each element at_path items O in
  (issues, JArray values).
Proof. reflexivity. Qed.

Lemma check_each_cons (element : Zod.ZodType) (at_path : list PathSegment)
  (item : Json) (rest : list Json) (i : nat) :
  check_each element at_path (item :: rest) i =
  let '(issues, value) := Zod.check element (at_path ++ [Index i]) (Some item) in
  let '(more, values) := check_each element at_path rest (S i) in
  ((issues ++ more)%list, value :: values).
Proof. reflexivity. Qed.

Lemma check_object (shape : list (string * Zod.ZodType))
  (at_path : list PathSegment) (fields : list (string * Json)) :
  Zod.check (Zod.ZObject shape) at_path (Some (JObject fields)) =
  let '(issues, values) := check_fields fields at_path shape in
  (issues, JObject values).
Proof. reflexivity. Qed.

Lemma check_fields_cons (fields : list (string * Json)) (at_path : list PathSegment)
  (key : string) (field_schema : Zod.ZodType) (rest : list (string * Zod.ZodType)) :
  check_fields fields at_path ((key, field_schema) :: rest) =
  let '(issues, value) :=
    Zod.check field_schema (at_path ++ [Key key]) (get_field key fields) in
  let '(more, values) := check_fields fields at_path rest in
  ((issues ++ more)%list, (key, value) :: values).
Proof. reflexivity. Qed.

Lemma check_fields_nil (fields : list (string * Json)) (at_path : list PathSegment) :
  check_fields fields at_path [] = ([], []).
Proof. reflexivity. Qed.

Lemma check_array_only (element : Zod.ZodType) (at_path : list PathSegment)
  (input : option Json) :
  fst (Zod.check (Zod.ZArray element) at_path input) = [] ->
  exists items, input = Some (JArray items).
Proof. destruct input as [[] |]; simpl; try discriminate. eauto. Qed.

Lemma check_day (at_path : list PathSegment) (item : Json) :
  (fst (Zod.check day_schema at_path (Some item)) = [] ->
   exists day, strip_day item = Some day
               /\ snd (Zod.check day_schema at_path (Some item)) = day)
  /\ (forall day, strip_day item = Some day ->
                  Zod.check day_schema at_path (Some item) = ([], day)).
Proof.
  destruct item as [| b | n | s | items | fields]; simpl;
    try (split; [discriminate | intros day [=]]).
  destruct (get_field "downloads" fields) as [[] |];
    destruct (get_field "day" fields) as [[] |]; simpl;
    (split; [try discriminate; eauto | intros day H; try discriminate H]).
  now injection H as <-.
Qed.

Lemma check_days (at_path : list PathSegment) (items : list Json) (i : nat) :
  (fst (check_each day_schema at_path items i) = [] ->
   exists days, strip_days items = Some days
                /\ snd (check_each day_schema at_path items i) = days)
  /\ (forall days, strip_days items = Some days ->
                   check_each day_schema at_path items i = ([], days)).
Proof.
  revert i. induction items as [| item items IH]; intros i.
  - simpl. split; [eauto | now intros days [= <-]].
  - rewrite check_each_cons. cbn [strip_days].
    destruct (check_day (at_path ++ [Index i]) item) as [Hday Hday'].
    destruct (IH (S i)) as [Hrest Hrest'].
    destruct (Zod.check day_schema (at_path ++ [Index i]) (Some item))
      as [issues value] eqn:Hitem.
    destruct (check_each day_schema at_path items (S i)) as [more values] eqn:Hitems.
    simpl in *. split.
    + intros Hnil. apply app_eq_nil in Hnil as [-> ->].
      destruct (Hday eq_refl) as (day & -> & ->).
      destruct (Hrest eq_refl) as (days & -> & ->). eauto.
    + intros days Hdays.
      destruct (strip_day item) as [day |]; [| discriminate].
      destruct (strip_days items) as [days' |]; [| discriminate].
      injection Hdays as <-.
      specialize (Hday' day eq_refl). specialize (Hrest' days' eq_refl).
      injection Hday' as -> ->. injection Hrest' as -> ->. reflexivity.
Qed.

(** What the point schema accepts and what it returns. *)
Lemma point_schema_spec (document parsed : Json) :
  Zod.parse NpmAPIPointResponseSchema document = ret parsed <->
  exists fields package downloads start finish,
    document = JObject fields
    /\ get_field "package" fields = Some (JString package)
    /\ get_field "downloads" fields = Some (JNumber downloads)
    /\ get_field "start" fields = Some (JString start)
    /\ get_field "end" fields = Some (JString finish)
    /\ parsed = point_record package downloads start finish.
Proof.
  rewrite parse_returns. split.
  - intros [Hissues ->].
    destruct (check_object_only _ _ _ Hissues) as [fields [= ->]].
    revert Hissues. unfold NpmAPIPointResponseSchema.
    rewrite check_object, !check_fields_cons, check_fields_nil. cbn [app].
    destruct (Zod.check Zod.ZString [Key "package"] (get_field "package" fields))
      as [i1 v1] eqn:H1.
    destruct (Zod.check Zod.ZNumber [Key "downloads"] (get_field "downloads" fields))
      as [i2 v2] eqn:H2.
    destruct (Zod.check Zod.ZString [Key "start"] (get_field "start" fields))
      as [i3 v3] eqn:H3.
    destruct (Zod.check Zod.ZString [Key "end"] (get_field "end" fields))
      as [i4 v4] eqn:H4.
    cbn [fst snd]. intros Hnil.
    apply app_eq_nil in Hnil as [-> Hnil].
    apply app_eq_nil in Hnil as [-> Hnil].
    apply app_eq_nil in Hnil as [-> Hnil].
    apply app_eq_nil in Hnil as [-> _].
    destruct (check_string _ _ (f_equal fst H1)) as [package Hp].
    destruct (check_number _ _ (f_equal fst H2)) as [downloads Hd].
    destruct (check_string _ _ (f_equal fst H3)) as [start Hs].
    destruct (check_string _ _ (f_equal fst H4)) as [finish He].
    rewrite Hp in H1. rewrite Hd in H2. rewrite Hs in H3. rewrite He in H4.
    simpl in H1, H2, H3, H4.
    injection H1 as <-. injection H2 as <-. injection H3 as <-. injection H4 as <-.
    exists fields, package, downloads, start, finish. auto 10.
  - intros (fields & package & downloads & start & finish
            & -> & Hp & Hd & Hs & He & ->).
    unfold NpmAPIPointResponseSchema.
    rewrite check_object, !check_fields_cons, check_fields_nil. cbn [app].
    rewrite Hp, Hd, Hs, He. simpl. auto.
Qed.

(** What the range schema accepts and what it returns. *)
Lemma range_schema_spec (document parsed : Json) :
  Zod.parse NpmAPIRangeResponseSchema document = ret parsed <->
  exists fields package start finish items days,
    document = JObject fields
    /\ get_field "package" fields = Some (JString package)
    /\ get_field "start" fields = Some (JString start)
    /\ get_field "end" fields = Some (JString finish)
    /\ get_field "downloads" fields = Some (JArray items)
    /\ strip_days items = Some days
    /\ parsed = range_record package start finish days.
Proof.
  rewrite parse_returns. split.
  - intros [Hissues ->].
    destruct (check_object_only _ _ _ Hissues) as [fields [= ->]].
    revert Hissues. unfold NpmAPIRangeResponseSchema. fold day_schema.
    rewrite check_object, !check_fields_cons, check_fields_nil. cbn [app].
    destruct (Zod.check Zod.ZString [Key "package"] (get_field "package" fields))
      as [i1 v1] eqn:H1.
    destruct (Zod.check Zod.ZString [Key "start"] (get_field "start" fields))
      as [i2 v2] eqn:H2.
    destruct (Zod.check Zod.ZString [Key "end"] (get_field "end" fields))
      as [i3 v3] eqn:H3.
    destruct (Zod.check (Zod.ZArray day_schema) [Key "downloads"]
                (get_field "downloads" fields)) as [i4 v4] eqn:H4.
    cbn [fst snd]. intros Hnil.
    apply app_eq_nil in Hnil as [-> Hnil].
    apply app_eq_nil in Hnil as [-> Hnil].
    apply app_eq_nil in Hnil as [-> Hnil].
    apply app_eq_nil in Hnil as [-> _].
    destruct (check_string _ _ (f_equal fst H1)) as [package Hp].
    destruct (check_string _ _ (f_equal fst H2)) as [start Hs].
    destruct (check_string _ _ (f_equal fst H3)) as [finish He].
    destruct (check_array_only _ _ _ (f_equal fst H4)) as [items Hi].
    rewrite Hp in H1. rewrite Hs in H2. rewrite He in H3. rewrite Hi in H4.
    simpl in H1, H2, H3.
    injection H1 as <-. injection H2 as <-. injection H3 as <-.
    rewrite check_array in H4.
    destruct (check_days [Key "downloads"] items O) as [Hdays _].
    destruct (check_each day_schema [Key "downloads"] items O) as [issues values].
    injection H4 as -> <-.
    destruct (Hdays eq_refl) as (days & Hstrip & Hvalues). simpl in Hvalues. subst values.
    exists fields, package, start, finish, items, days. auto 10.
  - intros (fields & package & start & finish & items & days
            & -> & Hp & Hs & He & Hi & Hdays & ->).
    unfold NpmAPIRangeResponseSchema. fold day_schema.
    rewrite check_object, !check_fields_cons, check_fields_nil. cbn [app].
    rewrite Hp, Hs, He, Hi, check_array.
    destruct (check_days [Key "downloads"] items O) as [_ Hvalues].
    rewrite (Hvalues days Hdays). simpl. auto.
Qed.

(** X14: the point schema accepts exactly the objects whose [package],
    [start] and [end] are strings and whose [downloads] is a number; the
    validated record holds these four fields, in the order of the schema,
    and nothing else: any other key of the response is dropped. *)
Theorem point_schema_accepts (document parsed : Json) :
  Zod.parse NpmAPIPointResponseSchema document = ret parsed <->
  exists fields package downloads start finish,
    document = JObject fields
    /\ get_field "package" fields = Some (JString package)
    /\ get_field "downloads" fields = Some (JNumber downloads)
    /\ get_field "start" fields = Some (JString start)
    /\ get_field "end" fields = Some (JString finish)
    /\ parsed = point_record package downloads start finish.
Proof. exact (point_schema_spec document parsed). Qed.

(** X15: the range schema accepts exactly the objects whose [package],
    [start] and [end] are strings and whose [downloads] is an array of
    objects that each have a numeric [downloads] and a string [day]; the
    validated record keeps the days in their order, each reduced to these
    two fields, and drops every other key. *)
Theorem range_schema_accepts (document parsed : Json) :
  Zod.parse NpmAPIRangeResponseSchema document = ret parsed <->
  exists fields package start finish items days,
    document = JObject fields
    /\ get_field "package" fields = Some (JString package)
    /\ get_field "start" fields = Some (JString start)
    /\ get_field "end" fields = Some (JString finish)
    /\ get_field "downloads" fields = Some (JArray items)
    /\ strip_days items = Some days
    /\ parsed = range_record package start finish days.
Proof. exact (range_schema_spec document parsed). Qed.

Lemma strip_day_again (item day : Json) :
  strip_day item = Some day -> strip_day day = Some day.
Proof.
  destruct item as [| | | | | fields]; simpl; try discriminate.
  destruct (get_field "downloads" fields) as [[] |]; try discriminate.
  destruct (get_field "day" fields) as [[] |]; try discriminate.
  now intros [= <-].
Qed.

Lemma strip_days_again (items days : list Json) :
  strip_days items = Some days -> strip_days days = Some days.
Proof.
  revert days. induction items as [| item items IH]; intros days; simpl.
  - now intros [= <-].
  - destruct (strip_day item) as [day |] eqn:Hday; [| discriminate].
    destruct (strip_days items) as [days' |]; [| discriminate].
    intros [= <-]. simpl. now rewrite (strip_day_again item day Hday), (IH days' eq_refl).
Qed.

(** X16: validation is idempotent: a record that either schema returned is
    accepted by that schema again and comes back unchanged. *)
Theorem validated_records_validate_again (type : NpmDownloadCountClient.RequestType)
  (document parsed : Json) :
  Zod.parse (NpmDownloadCountClient.schema_of type) document = ret parsed ->
  Zod.parse (NpmDownloadCountClient.schema_of type) parsed = ret parsed.
Proof.
  destruct type; simpl.
  - intros H. apply point_schema_spec in H
      as (fields & package & downloads & start & finish & _ & _ & _ & _ & _ & ->).
    apply point_schema_spec. unfold point_record.
    eexists _, package, downloads, start, finish. repeat split; reflexivity.
  - intros H. apply range_schema_spec in H
      as (fields & package & start & finish & items & days
          & _ & _ & _ & _ & _ & Hdays & ->).
    apply range_schema_spec. unfold range_record.
    eexists _, package, start, finish, days, days.
    repeat split; try reflexivity. exact (strip_days_again items days Hdays).
Qed.

End SchemaFacts.

(** * Further properties of the client *)

Module ClientMore.
Import JS Terms MoreTerms NpmDownloadCountClient ClientFacts.

(** The rejection [Promise.all] reports settled no later than any other. *)
Lemma first_rejection_is_earliest (promises : list Settled) (t : nat) (e : Thrown) :
  first_rejection promises = Some (t, e) ->
  (exists i p, nth_error promises i = Some p /\ outcome p = throw e /\ settledAt p = t)
  /\ forall j q e', nth_error promises j = Some q -> outcome q = throw e' ->
                    (t <= settledAt q)%nat.
Proof.
  revert t e. induction promises as [| p promises IH]; intros t e; simpl;
    [discriminate |].
  destruct (outcome p) as [e0 | v] eqn:Hp.
  - destruct (first_rejection promises) as [[t' e'] |] eqn:Hrest.
    + destruct (IH t' e' eq_refl) as [(i & q & Hnth & Hq & Ht) Hmin].
      destruct (Nat.ltb_spec t' (settledAt p)) as [Hlt | Hge]; intros [= <- <-].
      * split; [exists (S i), q; auto |].
        intros [| j] q' e''; simpl.
        -- intros [= <-] _. lia.
        -- apply Hmin.
      * split; [exists O, p; auto |].
        intros [| j] q' e''; simpl.
        -- intros [= <-] _. lia.
        -- intros Hj Hq'. specialize (Hmin j q' e'' Hj Hq'). lia.
    + intros [= <- <-]. split; [exists O, p; auto |].
      intros [| j] q' e''; simpl.
      * intros [= <-] _. lia.
      * intros Hj Hq'. exfalso. exact (no_rejection promises Hrest j q' e'' Hj Hq').
  - intros H. destruct (IH t e H) as [(i & q & Hnth & Hq & Ht) Hmin].
    split; [exists (S i), q; auto |].
    intros [| j] q' e''; simpl.
    + intros [= <-] Hq'. unfold throw in Hq'. congruence.
    + apply Hmin.
Qed.

Lemma some_rejection (promises : list Settled) (i : nat) (p : Settled) (e : Thrown) :
  nth_error promises i = Some p -> outcome p = throw e ->
  exists t e', first_rejection promises = Some (t, e').
Proof.
  intros Hp He. destruct (first_rejection promises) as [[t e'] |] eqn:Hfirst; [eauto |].
  exfalso. exact (no_rejection promises Hfirst i p e Hp He).
Qed.

(** The error of [map_throwing] is that of the first item that throws. *)
Lemma map_throwing_first {A B : Type} (f : A -> Result B) (items : list A)
  (i : nat) (x : A) (e : Thrown) :
  nth_error items i = Some x -> f x = throw e ->
  (forall j y, (j < i)%nat -> nth_error items j = Some y -> exists v, f y = ret v) ->
  map_throwing f items = throw e.
Proof.
  revert i. induction items as [| x' items IH]; intros [| i]; simpl; try discriminate.
  - intros [= ->] -> _. reflexivity.
  - intros Hnth Hf Hbefore.
    destruct (Hbefore O x' ltac:(lia) eq_refl) as [v ->]. simpl.
    rewrite (IH i Hnth Hf); [reflexivity |].
    intros j y Hj Hy. apply (Hbefore (S j) y); [lia | exact Hy].
Qed.

Lemma NoDup_map_injective {A B : Type} (f : A -> B) (items : list A) :
  (forall x y, f x = f y -> x = y) -> NoDup items -> NoDup (map f items).
Proof.
  intros Hinj Hdistinct. induction Hdistinct as [| x items Hnotin _ IH]; simpl.
  - constructor.
  - constructor; [| exact IH].
    intros Hin. apply in_map_iff in Hin as (y & Hy & Hiny).
    apply Hinj in Hy. subst y. contradiction.
Qed.

Lemma append_cancel (a x y : string) : a ++ x = a ++ y -> x = y.
Proof. induction a as [| c a IH]; simpl; [auto | intros [= H]; auto]. Qed.

Section Client.

Variables tz now : Z.
Variable parseISO : string -> Date.
Variable requestService : IRequestService.

(** X17: an operation asked for no package at all dispatches no request and
    resolves to the empty list. *)
Theorem no_packages_no_requests (c : Call) (options : MakeRequestPathOptions) :
  plan tz now parseISO c = Some options ->
  packages options = [] ->
  dispatched tz requestService options = []
  /\ invoke tz now parseISO requestService c = ret [].
Proof.
  intros Hplan Hnone. rewrite (invoke_plan tz now parseISO requestService c options Hplan).
  unfold dispatched, makeRequestPaths. rewrite Hnone. split; reflexivity.
Qed.

(** X18: when a dispatched request is rejected, the operation reports a
    rejection, never a validation error, and of several rejections the one
    that settled first, whatever the order of the packages. *)
Theorem earliest_rejection_is_reported (c : Call) (options : MakeRequestPathOptions)
  (i : nat) (p : Settled) (e : Thrown) :
  plan tz now parseISO c = Some options ->
  nth_error (dispatched tz requestService options) i = Some p ->
  outcome p = throw e ->
  exists j q cause,
    invoke tz now parseISO requestService c =
      throw (JsError "Unable to get downloads stats from the npm API" (Some cause))
    /\ nth_error (dispatched tz requestService options) j = Some q
    /\ outcome q = throw cause
    /\ forall k r e', nth_error (dispatched tz requestService options) k = Some r ->
                      outcome r = throw e' -> (settledAt q <= settledAt r)%nat.
Proof.
  intros Hplan Hp He.
  rewrite (invoke_plan tz now parseISO requestService c options Hplan).
  pose proof (request_cases requestService (makeRequestPaths tz options)
                (requestType options)) as Hcases.
  cbv zeta in Hcases. fold (dispatched tz requestService options) in Hcases.
  destruct (some_rejection _ i p e Hp He) as (t & cause & Hfirst).
  rewrite Hfirst in Hcases.
  destruct (first_rejection_is_earliest _ t cause Hfirst)
    as [(j & q & Hq & Hcause & Ht) Hmin].
  exists j, q, cause. repeat split; try assumption.
  intros k r e' Hr He'. rewrite Ht. exact (Hmin k r e' Hr He').
Qed.

(** X19: when every request resolves, the responses are validated in the
    order of the packages and the first invalid one ends the operation: the
    cause is the validation error of that response, with all its issues. *)
Theorem first_invalid_response_is_reported (c : Call)
  (options : MakeRequestPathOptions) (i : nat) (document : Json)
  (issues : list ZodIssue) :
  plan tz now parseISO c = Some options ->
  (forall j q, nth_error (dispatched tz requestService options) j = Some q ->
               exists response, outcome q = ret response) ->
  (exists p, nth_error (dispatched tz requestService options) i = Some p
             /\ outcome p = ret document) ->
  Zod.parse (schema_of (requestType options)) document = throw (ZodError issues) ->
  (forall j q response,
      (j < i)%nat ->
      nth_error (dispatched tz requestService options) j = Some q ->
      outcome q = ret response ->
      exists parsed, Zod.parse (schema_of (requestType options)) response = ret parsed) ->
  invoke tz now parseISO requestService c =
  throw (JsError "Unable to get downloads stats from the npm API"
           (Some (ValidationError "Object shape is not valid." issues
                    (Some (ZodError issues))))).
Proof.
  intros Hplan Hresolved (p & Hp & Hdocument) Hinvalid Hbefore.
  rewrite (invoke_plan tz now parseISO requestService c options Hplan).
  pose proof (request_cases requestService (makeRequestPaths tz options)
                (requestType options)) as Hcases.
  cbv zeta in Hcases. fold (dispatched tz requestService options) in Hcases.
  destruct (first_rejection (dispatched tz requestService options))
    as [[t e] |] eqn:Hfirst.
  { exfalso. destruct (first_rejection_is_one _ t e Hfirst) as (j & q & Hq & He).
    destruct (Hresolved j q Hq) as [response Hresponse].
    unfold ret, throw in *. congruence. }
  destruct Hcases as (responses & Hvalues & ->).
  destruct (map_throwing_values _ _ _ Hvalues) as [Hlen Hnth].
  destruct (Hnth i p Hp) as (document' & Hdoc & Hresponse).
  assert (document' = document) by (unfold ret in *; congruence). subst document'.
  rewrite (map_throwing_first (parseObjectWithSchema (schema_of (requestType options)))
             responses i document
             (ValidationError "Object shape is not valid." issues (Some (ZodError issues)))
             Hresponse).
  - reflexivity.
  - unfold parseObjectWithSchema. rewrite Hinvalid. reflexivity.
  - intros j response Hj Hjth.
    assert (Hlt : (j < length (dispatched tz requestService options))%nat).
    { rewrite <- Hlen. apply nth_error_Some. congruence. }
    destruct (nth_error (dispatched tz requestService options) j) as [q |] eqn:Hq;
      [| apply nth_error_None in Hq; lia].
    destruct (Hnth j q Hq) as (r & Hr & Hr').
    assert (r = response) by congruence. subst r.
    destruct (Hbefore j q response Hj Hq Hr) as [parsed Hparsed].
    exists parsed. now apply parseObjectWithSchema_returns.
Qed.


(** X21: a week or a date that cannot be read is not refused: when the date
    library answers the invalid date, the week operations still dispatch
    their requests, for the path fragment [NaN-NaN-NaN:NaN-NaN-NaN]. *)
Theorem unreadable_weeks_are_requested_as_NaN (pkgs : list string) (week : string)
  (startOfWeek : option StartOfWeek) :
  parseISO (handed_to_library tz now week) = InvalidDate ->
  invoke tz now parseISO requestService (CallGetWeek pkgs (Str week) startOfWeek)
  = request requestService
      (map (fun P => "/point/NaN-NaN-NaN:NaN-NaN-NaN/" ++ P) pkgs) point
  /\ invoke tz now parseISO requestService
       (CallGetDailyDownloadsForWeek pkgs (Str week) startOfWeek)
     = request requestService
         (map (fun P => "/range/NaN-NaN-NaN:NaN-NaN-NaN/" ++ P) pkgs) range.
Proof.
  intros Hinvalid.
  assert (Hweek : getStartAndEndDatesForWeek tz now parseISO (Str week) startOfWeek
                  = (InvalidDate, InvalidDate)).
  { rewrite (ClientFacts.week_of_week_date tz now parseISO (Str week) startOfWeek).
    cbn [week_date]. rewrite Hinvalid. reflexivity. }
  cbn [invoke]. unfold getWeek, getDailyDownloadsForWeek.
  rewrite Hweek. split; reflexivity.
Qed.

(** X22: the week resolved for a valid date contains that date: it opens at
    a local midnight, at or before the date, on a Monday (day 1) when the
    option is left out or is [monday] and on a Sunday (day 0) when it is
    [sunday], and closes one millisecond short of seven days later, at or
    after the date. *)
Theorem the_week_contains_its_date (t : Z) (startOfWeek : option StartOfWeek) :
  exists opening closing,
    getStartAndEndDatesForWeek tz now parseISO (Obj (DateAt t)) startOfWeek
    = (DateAt opening, DateAt closing)
    /\ opening <= t <= closing
    /\ closing - opening = 7 * msPerDay - 1
    /\ (opening + tz) mod msPerDay = 0
    /\ JS.getDay tz (DateAt opening)
       = Some (match startOfWeek with Some sunday => 0 | _ => 1 end).
Proof.
  unfold getStartAndEndDatesForWeek, DateFns.startOfWeek, DateFns.endOfWeek.
  eexists _, _. split; [reflexivity |].
  change (match startOfWeek with Some sunday => 0 | _ => 1 end)
    with (weekStartsOn startOfWeek).
  assert (Hboundary : weekStartsOn startOfWeek = 0 \/ weekStartsOn startOfWeek = 1).
  { destruct startOfWeek as [[] |]; simpl; auto. }
  unfold JS.getDay. rewrite CalendarFacts.local_day_start_of_day.
  set (day := local_day tz t) in *.
  assert (Hday : day * msPerDay <= t + tz < (day + 1) * msPerDay).
  { subst day. unfold local_day, msPerDay. Z.div_mod_to_equations. lia. }
  set (w := weekStartsOn startOfWeek) in *.
  unfold msPerDay in *.
  destruct (Z.ltb_spec ((day + 4) mod 7) w) as [Hlt | Hge];
    (repeat split; [ | | | | f_equal]);
    revert Hlt || revert Hge; Z.div_mod_to_equations; lia.
Qed.

(** X23: for the same date the week that begins on Sunday opens one day
    before the week that begins on Monday, and closes one day before it,
    unless the date is itself a Sunday: then it opens and closes six days
    after. Leaving the option out is asking for Monday. *)
Theorem sunday_weeks_are_one_day_ahead (t : Z) :
  let shift := if (local_day tz t + 4) mod 7 =? 0 then 6 * msPerDay else - msPerDay in
  exists opening closing,
    getStartAndEndDatesForWeek tz now parseISO (Obj (DateAt t)) (Some monday)
    = (DateAt opening, DateAt closing)
    /\ getStartAndEndDatesForWeek tz now parseISO (Obj (DateAt t)) (Some sunday)
       = (DateAt (opening + shift), DateAt (closing + shift))
    /\ getStartAndEndDatesForWeek tz now parseISO (Obj (DateAt t)) None
       = (DateAt opening, DateAt closing).
Proof.
  unfold getStartAndEndDatesForWeek, DateFns.startOfWeek, DateFns.endOfWeek.
  cbn [weekStartsOn].
  eexists _, _. split; [reflexivity |]. split; [| reflexivity].
  set (day := local_day tz t).
  unfold msPerDay.
  destruct (Z.eqb_spec ((day + 4) mod 7) 0) as [Hsun | Hother];
    destruct (Z.ltb_spec ((day + 4) mod 7) 1) as [Hlt | Hge];
    destruct (Z.ltb_spec ((day + 4) mod 7) 0) as [Hneg | _];
    try (exfalso; revert Hsun Hge || revert Hother Hlt || revert Hneg;
         Z.div_mod_to_equations; lia);
    f_equal; f_equal; lia.
Qed.

(** X24: the paths are told apart by their packages alone: two packages get
    the same path only if they are the same package, so distinct packages
    are requested on distinct paths. *)
Theorem distinct_packages_distinct_paths (options : MakeRequestPathOptions) :
  NoDup (packages options) -> NoDup (makeRequestPaths tz options).
Proof.
  intros Hdistinct. unfold makeRequestPaths.
  apply NoDup_map_injective; [| exact Hdistinct].
  intros P Q Hsame.
  apply (append_cancel "/") in Hsame.
  apply append_cancel in Hsame.
  apply (append_cancel "/") in Hsame.
  apply append_cancel in Hsame.
  apply (append_cancel "/") in Hsame.
  exact Hsame.
Qed.

End Client.

End ClientMore.

(** * The further properties at concrete inputs *)

Module MoreExamples.
Import JS RequestService Terms MoreTerms NpmDownloadCountClient.
Import RequestServiceMore SerializerMore SchemaFacts ClientMore.

Lemma resolves_after_retries_witness :
  RequestService.request
    (flaky 2 (responding 200 (ret (JObject [("result", JString "success")]))))
    (constructor None) None []
  = (ret (JObject [("result", JString "success")]), constructor None,
     [ Fetched "/downloads" GET None; Slept 1000;
       Fetched "/downloads" GET None; Slept 1000;
       Fetched "/downloads" GET None ]).
Proof.
  apply (resolves_after_retries
           (flaky 2 (responding 200 (ret (JObject [("result", JString "success")]))))
           (constructor None) None [] "" 2)
    with (response :=
            {| status := 200;
               json := ret (JObject [("result", JString "success")]) |}).
  - reflexivity.
  - simpl. lia.
  - intros j Hj. destruct j as [| [| j]]; [| | lia];
      (eexists; split; [reflexivity | simpl; auto]).
  - reflexivity.
  - simpl. lia.
  - reflexivity.
Defined.

Lemma not_json_is_final_witness :
  RequestService.request
    (flaky 1 (responding 200 (throw (HostError "SyntaxError" "Unexpected token"))))
    (constructor None) None []
  = (throw (JsError "API endpoint returned a non JSON response"
              (Some (HostError "SyntaxError" "Unexpected token"))),
     constructor None,
     [ Fetched "/downloads" GET None; Slept 1000; Fetched "/downloads" GET None ]).
Proof.
  apply (not_json_is_final
           (flaky 1 (responding 200 (throw (HostError "SyntaxError" "Unexpected token"))))
           (constructor None) None [] "" 1)
    with (response :=
            {| status := 200;
               json := throw (HostError "SyntaxError" "Unexpected token") |}).
  - reflexivity.
  - simpl. lia.
  - intros j Hj. destruct j as [| j]; [| lia].
    eexists. split; [reflexivity | simpl; auto].
  - reflexivity.
  - simpl. lia.
  - reflexivity.
Defined.

Lemma other_status_after_retries_witness :
  RequestService.request (flaky 1 (responding 404 (ret JNull))) (constructor None) None []
  = (throw (JsError "API endpoint returned status code 404" None),
     constructor None,
     [ Fetched "/downloads" GET None; Slept 1000; Fetched "/downloads" GET None ]).
Proof.
  apply (other_status_after_retries
           (flaky 1 (responding 404 (ret JNull))) (constructor None) None [] "" 1)
    with (response := {| status := 404; json := ret JNull |}).
  - reflexivity.
  - simpl. lia.
  - intros j Hj. destruct j as [| j]; [| lia].
    eexists. split; [reflexivity | simpl; auto].
  - reflexivity.
  - simpl. lia.
  - simpl. intros [H | [H | [H | [H | []]]]]; discriminate.
Defined.

Lemma fetch_rejection_is_passed_on_witness :
  RequestService.request
    (flaky 2 (FetchRejected (HostError "TypeError" "fetch failed")))
    (constructor None) None []
  = (throw (HostError "TypeError" "fetch failed"),
     with_count (constructor None) 2,
     [ Fetched "/downloads" GET None; Slept 1000;
       Fetched "/downloads" GET None; Slept 1000;
       Fetched "/downloads" GET None ]).
Proof.
  apply (fetch_rejection_is_passed_on
           (flaky 2 (FetchRejected (HostError "TypeError" "fetch failed")))
           (constructor None) None [] "" 2).
  - reflexivity.
  - simpl. lia.
  - intros j Hj. destruct j as [| [| j]]; [| | lia];
      (eexists; split; [reflexivity | simpl; auto]).
  - reflexivity.
Defined.

Lemma request_stays_within_budget_witness :
  exists n,
    (n <= budget (constructor None))%nat
    /\ snd (RequestService.request (flaky 1 (responding 200 (ret JNull))) (constructor None)
              (with_params [("foo", VString "bar@")]) [])
       = ([] ++ attempt_of (constructor None) (with_params [("foo", VString "bar@")])
                  "?foo=bar%40"
             :: retries
                  (attempt_of (constructor None) (with_params [("foo", VString "bar@")])
                     "?foo=bar%40")
                  (delay (requestRetry (constructor None))) n)%list
    /\ attempts (snd (RequestService.request (flaky 1 (responding 200 (ret JNull))) (constructor None)
                        (with_params [("foo", VString "bar@")]) []))
       = (attempts [] + S n)%nat.
Proof.
  apply (request_stays_within_budget (flaky 1 (responding 200 (ret JNull)))
           (constructor None) (with_params [("foo", VString "bar@")]) [] "?foo=bar%40").
  reflexivity.
Defined.

Lemma no_retry_without_budget_witness :
  RequestService.request (always 500) (constructor (retry_config 0 0)) None []
  = (throw (JsError
              "API endpoint failed to provide a valid response, max retries exceeded"
              None),
     constructor (retry_config 0 0),
     ([] ++ [attempt_of (constructor (retry_config 0 0)) None ""])%list).
Proof.
  apply (no_retry_without_budget (always 500) (constructor (retry_config 0 0))
           None [] "").
  - reflexivity.
  - simpl. lia.
  - eexists. split; [reflexivity |]. simpl. auto.
Defined.

Lemma invalid_date_parameter_stops_the_call_witness :
  RequestService.request (always 200) (constructor None)
    (with_params [("foo", VString "bar"); ("since", VDate InvalidDate)]) []
  = (throw (HostError "RangeError" "Invalid time value"), constructor None, []).
Proof.
  apply (invalid_date_parameter_stops_the_call (always 200) (constructor None)
           [("foo", VString "bar"); ("since", VDate InvalidDate)] "since" []).
  simpl. auto.
Defined.

Lemma query_has_only_safe_characters_witness :
  "?a+b=c%2520d%2F%23" = ""
  \/ exists rest,
       "?a+b=c%2520d%2F%23" = "?" ++ rest /\ string_forall query_safe rest = true.
Proof.
  apply (query_has_only_safe_characters (with_params [("a b", VString "c d/#")])
           "?a+b=c%2520d%2F%23").
  reflexivity.
Defined.

Lemma serialization_keeps_the_order_witness :
  serializeQueryParams
    ([("foo", VString "bar@"); ("skipped", VNull)] ++ [("baz", VNumber 1)])
  = ret ([("foo", "bar@")] ++ [("baz", "1")])%list.
Proof.
  apply (serialization_keeps_the_order
           [("foo", VString "bar@"); ("skipped", VNull)] [("baz", VNumber 1)]
           [("foo", "bar@")] [("baz", "1")]).
  - reflexivity.
  - reflexivity.
Defined.

Lemma date_parameters_are_zero_padded_witness :
  query_of (with_params
              [("foo", VDate (DateAt (days_from_civil 2021 1 1 * msPerDay + 0)))])
  = ret ("?" ++ urlencoded "foo" ++ "="
           ++ pad_start_0 4 2021 ++ "-" ++ pad_start_0 2 1 ++ "-" ++ pad_start_0 2 1)
  /\ String.length (pad_start_0 4 2021) = 4%nat
  /\ String.length (pad_start_0 2 1) = 2%nat
  /\ String.length (pad_start_0 2 1) = 2%nat.
Proof.
  apply (date_parameters_are_zero_padded "foo" 2021 1 1 0).
  - split; [lia | split; [lia | vm_compute; discriminate]].
  - lia.
  - unfold msPerDay. lia.
Defined.

Lemma validated_records_validate_again_witness :
  Zod.parse (schema_of point) (parsed_point_document "@aws-lambda-powertools/logger" 2165)
  = ret (parsed_point_document "@aws-lambda-powertools/logger" 2165).
Proof.
  apply (validated_records_validate_again point
           (point_document "@aws-lambda-powertools/logger" 2165)
           (parsed_point_document "@aws-lambda-powertools/logger" 2165)).
  reflexivity.
Defined.

Lemma no_packages_no_requests_witness :
  dispatched 0 refusing_service
    {| packages := []; period := WithKeyword last_week; requestType := range |} = []
  /\ invoke 0 a_day_of_2023 parseISO_of_the_tests refusing_service
       (CallGetDailyDownloadsForLastWeek []) = ret [].
Proof.
  apply (no_packages_no_requests 0 a_day_of_2023 parseISO_of_the_tests refusing_service
           (CallGetDailyDownloadsForLastWeek [])
           {| packages := []; period := WithKeyword last_week; requestType := range |}).
  - reflexivity.
  - reflexivity.
Defined.

Lemma earliest_rejection_is_reported_witness :
  exists j q cause,
    invoke 0 a_day_of_2023 parseISO_of_the_tests hasty_service
      (CallGetLastDay ["a"; "b"; "c"])
    = throw (JsError "Unable to get downloads stats from the npm API" (Some cause))
    /\ nth_error
         (dispatched 0 hasty_service
            {| packages := ["a"; "b"; "c"];
               period := WithKeyword last_day;
               requestType := point |}) j = Some q
    /\ outcome q = throw cause
    /\ forall k r e',
         nth_error
           (dispatched 0 hasty_service
              {| packages := ["a"; "b"; "c"];
                 period := WithKeyword last_day;
                 requestType := point |}) k = Some r ->
         outcome r = throw e' -> (settledAt q <= settledAt r)%nat.
Proof.
  apply (earliest_rejection_is_reported 0 a_day_of_2023 parseISO_of_the_tests
           hasty_service (CallGetLastDay ["a"; "b"; "c"])
           {| packages := ["a"; "b"; "c"];
              period := WithKeyword last_day;
              requestType := point |}
           O (hasty_service O (path_only "/point/last-day/a")) (bad_status 400)).
  - reflexivity.
  - reflexivity.
  - reflexivity.
Defined.

Lemma first_invalid_response_is_reported_witness :
  invoke 0 a_day_of_2023 parseISO_of_the_tests nameless_service
    (CallGetLastDay ["a"; "b"])
  = throw (JsError "Unable to get downloads stats from the npm API"
             (Some (ValidationError "Object shape is not valid." [package_required]
                      (Some (ZodError [package_required]))))).
Proof.
  apply (first_invalid_response_is_reported 0 a_day_of_2023 parseISO_of_the_tests
           nameless_service (CallGetLastDay ["a"; "b"])
           {| packages := ["a"; "b"];
              period := WithKeyword last_day;
              requestType := point |}
           O nameless_document [package_required]).
  - reflexivity.
  - intros j q Hq. unfold dispatched in Hq. simpl in Hq.
    destruct j as [| [| [| j]]]; simpl in Hq; try discriminate;
      injection Hq as <-; eexists; reflexivity.
  - eexists. split; reflexivity.
  - reflexivity.
  - intros j q response Hj. lia.
Defined.

Lemma unreadable_weeks_are_requested_as_NaN_witness :
  invoke 0 a_day_of_2023 parseISO_of_the_tests steady_service
    (CallGetWeek ["@aws-lambda-powertools/logger"] (Str "next week") None)
  = NpmDownloadCountClient.request steady_service
      (map (fun P => "/point/NaN-NaN-NaN:NaN-NaN-NaN/" ++ P)
         ["@aws-lambda-powertools/logger"]) point
  /\ invoke 0 a_day_of_2023 parseISO_of_the_tests steady_service
       (CallGetDailyDownloadsForWeek ["@aws-lambda-powertools/logger"]
          (Str "next week") None)
     = NpmDownloadCountClient.request steady_service
         (map (fun P => "/range/NaN-NaN-NaN:NaN-NaN-NaN/" ++ P)
            ["@aws-lambda-powertools/logger"]) range.
Proof.
  apply (unreadable_weeks_are_requested_as_NaN 0 a_day_of_2023 parseISO_of_the_tests
           steady_service ["@aws-lambda-powertools/logger"] "next week" None).
  reflexivity.
Defined.

Lemma distinct_packages_distinct_paths_witness :
  NoDup
    (makeRequestPaths 0
       {| packages := ["@aws-lambda-powertools/logger"; "@aws-lambda-powertools/metrics"];
          period := WithKeyword last_month;
          requestType := range |}).
Proof.
  apply (distinct_packages_distinct_paths 0
           {| packages := ["@aws-lambda-powertools/logger"; "@aws-lambda-powertools/metrics"];
              period := WithKeyword last_month;
              requestType := range |}).
  simpl. repeat constructor; simpl; intuition discriminate.
Defined.

(** Numbers above [2^53] are written with the fewest digits that name the
    double, and in the exponent form from 1e21; its [+] is escaped in the
    URL. *)
Example large_numbers_as_strings :
  number_to_string (2 ^ 53 + 2) = "9007199254740994"
  /\ number_to_string (2 ^ 64) = "18446744073709552000"
  /\ number_to_string 123456789012345683968 = "123456789012345680000"
  /\ number_to_string (10 ^ 21) = "1e+21"
  /\ number_to_string (2 ^ 70) = "1.1805916207174113e+21"
  /\ number_to_string 99999999999999991611392 = "1e+23"
  /\ number_to_string (- 2 ^ 70) = "-1.1805916207174113e+21".
Proof. vm_compute. repeat split. Qed.

Example a_large_number_in_the_query :
  query_of (with_params [("n", VNumber (10 ^ 21))]) = ret "?n=1e%2B21".
Proof. vm_compute. reflexivity. Qed.

(** A space in a string value comes out as [%2520], an [@] as [%40]. *)
Example a_space_is_escaped_twice :
  query_of (with_params [("q", VString "a b@c")]) = ret "?q=a%2520b%40c".
Proof. reflexivity. Qed.

End MoreExamples.
